(** * DepGraphX: the entity/scope extraction and dependency-correlation engine

    A shallow embedding of [src/modules/code_scanner.py] (class [CodeScanner])
    and [src/modules/graph_db.py] (class [Neo4jGraph]).

    - Python [bytes] are [list byte]; a Python [str] is kept as the
      [string] of its UTF-8 encoding, so that [bytes.decode('utf-8')] is a
      validity check followed by a change of type.
    - A tree-sitter node is a rose tree carrying its type, byte span and
      children labelled by their field name.
    - The scanner mutates the [entities] dictionary and calls the persister
      as it goes: both are threaded through a state-and-exception monad
      whose state survives a raised exception, as in Python.
    - The persister's calls are logged; [Neo4jGraph] replays the log on a
      property graph with Cypher's MATCH / MERGE semantics. *)

From Stdlib Require Import List String Ascii Strings.Byte Arith PeanoNat Bool Lia.
From Stdlib Require Import RelationClasses.
Import ListNotations.
Open Scope string_scope.
Open Scope list_scope.
Open Scope nat_scope.

(* ================================================================== *)
(** * Python values, exceptions, text *)
(* ================================================================== *)

Module Py.

(** The exceptions this code can meet. *)
Inductive exn : Type :=
| AttributeError      (* attribute of None, or [str] has no [decode] *)
| UnicodeDecodeError  (* [bytes.decode('utf-8')] on invalid bytes *)
| ValueError          (* unpacking the wrong number of values *)
| KeyError            (* missing dictionary key *)
| TypeError
| OSError             (* [open] failed *)
| QueryError.         (* the grammar rejected a query pattern *)

Definition result (A : Type) : Type := (exn + A)%type.

Definition ok {A} (a : A) : result A := inr a.
Definition raise {A} (e : exn) : result A := inl e.

Definition rbind {A B} (r : result A) (k : A -> result B) : result B :=
  match r with
  | inl e => inl e
  | inr a => k a
  end.

Definition bytes := list byte.

(** [l[a:b]] for non-negative [a], [b]: clamps, never raises. *)
Definition slice {A} (l : list A) (a b : nat) : list A :=
  firstn (b - a) (skipn a l).

(** ** Strict UTF-8 (what [decode('utf-8')] accepts) *)

Definition between (lo hi : nat) (b : byte) : bool :=
  (lo <=? Byte.to_nat b) && (Byte.to_nat b <=? hi).

Definition cont (b : byte) : bool := between 128 191 b.

Fixpoint valid_utf8 (bs : list byte) : bool :=
  match bs with
  | [] => true
  | b0 :: r0 =>
    if between 0 127 b0 then valid_utf8 r0 else
    match r0 with
    | [] => false
    | b1 :: r1 =>
      if between 194 223 b0 then cont b1 && valid_utf8 r1 else
      match r1 with
      | [] => false
      | b2 :: r2 =>
        if between 224 224 b0 then between 160 191 b1 && cont b2 && valid_utf8 r2
        else if between 225 236 b0 then cont b1 && cont b2 && valid_utf8 r2
        else if between 237 237 b0 then between 128 159 b1 && cont b2 && valid_utf8 r2
        else if between 238 239 b0 then cont b1 && cont b2 && valid_utf8 r2
        else
        match r2 with
        | [] => false
        | b3 :: r3 =>
          if between 240 240 b0
          then between 144 191 b1 && cont b2 && cont b3 && valid_utf8 r3
          else if between 241 243 b0
          then cont b1 && cont b2 && cont b3 && valid_utf8 r3
          else if between 244 244 b0
          then between 128 143 b1 && cont b2 && cont b3 && valid_utf8 r3
          else false
        end
      end
    end
  end.

(** [bs.decode('utf-8')] *)
Definition decode (bs : bytes) : result string :=
  if valid_utf8 bs then ok (string_of_list_byte bs) else raise UnicodeDecodeError.

(** What [open(path, 'rb').read()] and its decoding hand around: the
    scanner passes both kinds to [_get_node_text]. *)
Inductive data : Type :=
| Bytes (b : bytes)
| Str (s : string).

(** ** [str] operations used by the scanner *)

Definition squote : ascii := ascii_of_nat 39.
Definition dquote : ascii := ascii_of_nat 34.
Definition dot : ascii := ascii_of_nat 46.
Definition slash : ascii := ascii_of_nat 47.

Definition is_quote (c : ascii) : bool :=
  Ascii.eqb c squote || Ascii.eqb c dquote.

Fixpoint lstrip (p : ascii -> bool) (s : list ascii) : list ascii :=
  match s with
  | [] => []
  | c :: r => if p c then lstrip p r else s
  end.

Definition strip_list (p : ascii -> bool) (s : list ascii) : list ascii :=
  rev (lstrip p (rev (lstrip p s))).

(** [s.strip(chars)] with [chars] given by its membership test *)
Definition strip (p : ascii -> bool) (s : string) : string :=
  string_of_list_ascii (strip_list p (list_ascii_of_string s)).

(** [s.split('.', 1)]: at most one split, at the first dot *)
Fixpoint split_dot1 (s : string) : list string :=
  match s with
  | EmptyString => [EmptyString]
  | String c r =>
    if Ascii.eqb c dot then [EmptyString; r]
    else match split_dot1 r with
         | h :: t => String c h :: t
         | [] => [String c EmptyString]
         end
  end.

(** [a, b = xs]: tuple unpacking into two names *)
Definition unpack2 {A} (xs : list A) : result (A * A) :=
  match xs with
  | [a; b] => ok (a, b)
  | _ => raise ValueError
  end.

(** truth value of a [str] *)
Definition truthy (s : string) : bool :=
  match s with EmptyString => false | _ => true end.

(** [s.startswith(p)] *)
Definition startswith (p s : string) : bool := String.prefix p s.

(** ** [pathlib.Path(p).suffix] *)

(** The pieces of a path between separators. *)
Fixpoint split_slash (acc s : list ascii) : list (list ascii) :=
  match s with
  | [] => [rev acc]
  | c :: r => if Ascii.eqb c slash then rev acc :: split_slash [] r
              else split_slash (c :: acc) r
  end.

(** A piece that pathlib keeps as a part of the path: not empty (doubled
    and trailing separators are dropped) and not the single dot. *)
Definition is_component (piece : list ascii) : bool :=
  match piece with
  | [] => false
  | [c] => negb (Ascii.eqb c dot)
  | _ => true
  end.

(** [Path(p).name]: the last part, the empty string when there is none *)
Definition path_name (path : list ascii) : list ascii :=
  last (filter is_component (split_slash [] path)) [].

(** [name.rfind('.')] *)
Fixpoint rfind_dot (i : nat) (s : list ascii) : option nat :=
  match s with
  | [] => None
  | c :: r =>
    match rfind_dot (S i) r with
    | Some j => Some j
    | None => if Ascii.eqb c dot then Some i else None
    end
  end.

Definition suffix (path : string) : string :=
  let name := path_name (list_ascii_of_string path) in
  match rfind_dot 0 name with
  | Some i =>
    if (0 <? i) && (i <? List.length name - 1)
    then string_of_list_ascii (skipn i name)
    else EmptyString
  | None => EmptyString
  end.

(** ** Iterating over a [str] *)

(** a byte that continues a UTF-8 sequence *)
Definition is_continuation (c : ascii) : bool :=
  (128 <=? nat_of_ascii c) && (nat_of_ascii c <=? 191).

(** [for ch in s]: the characters of [s], one string each; a character is
    a leading byte with the continuation bytes that follow it *)
Fixpoint chars (s : string) : list string :=
  match s with
  | EmptyString => []
  | String c r =>
    let rest := chars r in
    match r with
    | String c' _ =>
      if is_continuation c' then
        match rest with
        | h :: t => String c h :: t
        | [] => [String c EmptyString]
        end
      else String c EmptyString :: rest
    | EmptyString => [String c EmptyString]
    end
  end.

(** ** Dictionaries built by literal, as association lists *)

Inductive value : Type :=
| VStr (s : string)
| VList (l : list string)
| VNone.

Definition dict := list (string * value).

Fixpoint dict_get (d : dict) (k : string) : option value :=
  match d with
  | [] => None
  | (k', v) :: r => if String.eqb k' k then Some v else dict_get r k
  end.

(** [d[k]] *)
Definition getitem (d : dict) (k : string) : result value :=
  match dict_get d k with
  | Some v => ok v
  | None => raise KeyError
  end.

(** [k in d] *)
Definition contains (d : dict) (k : string) : bool :=
  match dict_get d k with Some _ => true | None => false end.

Definition value_eqb (a b : value) : bool :=
  match a, b with
  | VStr x, VStr y => String.eqb x y
  | VList x, VList y =>
    if list_eq_dec string_dec x y then true else false
  | VNone, VNone => true
  | _, _ => false
  end.

End Py.

Import Py.

(* ================================================================== *)
(** * The monad of the scanner: state that survives exceptions *)
(* ================================================================== *)

Section Monad.
Context {S : Type}.

Definition M (A : Type) : Type := S -> S * result A.

Definition ret {A} (a : A) : M A := fun s => (s, ok a).

Definition bind {A B} (m : M A) (k : A -> M B) : M B :=
  fun s =>
    match m s with
    | (s', inl e) => (s', inl e)
    | (s', inr a) => k a s'
    end.

Definition get : M S := fun s => (s, ok s).
Definition modify (f : S -> S) : M unit := fun s => (f s, ok tt).

(** a pure, possibly raising, computation *)
Definition lift {A} (r : result A) : M A := fun s => (s, r).

(** [for x in xs: body(x)] *)
Fixpoint for_each {A} (xs : list A) (body : A -> M unit) : M unit :=
  match xs with
  | [] => ret tt
  | x :: r => bind (body x) (fun _ => for_each r body)
  end.
End Monad.

Arguments M : clear implicits.

Declare Scope py_scope.
Delimit Scope py_scope with py.
Notation "x <- m ;; k" := (bind m (fun x => k))
  (at level 61, m at next level, right associativity) : py_scope.
Notation "m ;; k" := (bind m (fun _ => k))
  (at level 61, right associativity) : py_scope.
Notation "x <~ r ;; k" := (rbind r (fun x => k))
  (at level 61, r at next level, right associativity) : py_scope.

Local Open Scope py_scope.

(* ================================================================== *)
(** * Syntax trees (the tree-sitter interface the scanner consumes) *)
(* ================================================================== *)

(** A node: its type, its byte span [start_byte, end_byte), and its
    children, each with the field name the grammar gives it, if any. *)
#[warnings="-register-all"]
Inductive Node : Type :=
| mkNode (type : string) (start_byte end_byte : nat)
         (children : list (option string * Node)).

Definition type (n : Node) : string :=
  match n with mkNode t _ _ _ => t end.
Definition start_byte (n : Node) : nat :=
  match n with mkNode _ s _ _ => s end.
Definition end_byte (n : Node) : nat :=
  match n with mkNode _ _ e _ => e end.
Definition children (n : Node) : list (option string * Node) :=
  match n with mkNode _ _ _ cs => cs end.

(** [node.child_by_field_name(name)]: the first child carrying that field *)
Definition child_by_field_name (n : Node) (field : string) : option Node :=
  option_map snd
    (find (fun fc => match fst fc with
                     | Some f => String.eqb f field
                     | None => false
                     end) (children n)).

(** The result of [query.captures(root)]: (node, tag) pairs. *)
Definition Captures := list (Node * string).

Inductive Language : Type := JAVA_LANGUAGE | TS_LANGUAGE.

(** The query patterns of the scanner. Their text is opaque to the
    scanner, which only hands it to the grammar; a pattern is named here by
    where it is written: the entries of [QUERIES], and the pattern of
    [get_method_source]. *)
Inductive Pattern : Type :=
| java_method_calls | java_imports | java_inheritance
| ts_method_calls | ts_imports | ts_inheritance
| method_declaration_pattern.

(** What the scanner takes from its surroundings: the file system, the
    parser and the query engine. *)
Record Provider : Type := {
  os_walk : string -> list (string * list string);  (* (root, files) *)
  read_file : string -> result bytes;               (* open(p,'rb').read() *)
  parse : Language -> bytes -> Node;                (* parser.parse(..).root_node *)
  query : Language -> Pattern -> Node -> result Captures;
  parent : Node -> option Node                      (* node.parent *)
}.

(* ================================================================== *)
(** * Entities, dependencies, and the persister's call log *)
(* ================================================================== *)

Record ClassEntity : Type := {
  c_name : string; c_file : string; c_start_byte : nat; c_end_byte : nat
}.

Record MethodEntity : Type := {
  m_name : string; m_class : string; m_file : string;
  m_start_byte : nat; m_end_byte : nat
}.

(** The keys ['name'], ['file'], ['start_byte'], ['end_byte'] that
    [_find_enclosing_entity] reads from either kind of entity. *)
Class Entity (E : Type) : Type := {
  name : E -> string;
  file : E -> string;
  span_start : E -> nat;
  span_end : E -> nat
}.

#[global] Instance class_entity : Entity ClassEntity :=
  {| name := c_name; file := c_file;
     span_start := c_start_byte; span_end := c_end_byte |}.

#[global] Instance method_entity : Entity MethodEntity :=
  {| name := m_name; file := m_file;
     span_start := m_start_byte; span_end := m_end_byte |}.

(** [entities = {'classes': [], 'methods': [], 'dependencies': []}] *)
Record Entities : Type := {
  classes : list ClassEntity;
  methods : list MethodEntity;
  dependencies : list dict
}.

Definition empty_entities : Entities :=
  {| classes := []; methods := []; dependencies := [] |}.

(** The calls made on [self.graph], in the order they are made. *)
Inductive GraphCall : Type :=
| create_class_node (class_name file_path : string)
| create_method_node (method_name class_name file_path : string)
| create_dependency (dependency_data : dict).

Record State : Type := {
  entities : Entities;
  graph_log : list GraphCall
}.

Definition initial_state : State :=
  {| entities := empty_entities; graph_log := [] |}.

Definition append_class (c : ClassEntity) : M State unit :=
  modify (fun s =>
    {| entities := {| classes := classes (entities s) ++ [c];
                      methods := methods (entities s);
                      dependencies := dependencies (entities s) |};
       graph_log := graph_log s |}).

Definition append_method (m : MethodEntity) : M State unit :=
  modify (fun s =>
    {| entities := {| classes := classes (entities s);
                      methods := methods (entities s) ++ [m];
                      dependencies := dependencies (entities s) |};
       graph_log := graph_log s |}).

Definition append_dependency (d : dict) : M State unit :=
  modify (fun s =>
    {| entities := {| classes := classes (entities s);
                      methods := methods (entities s);
                      dependencies := dependencies (entities s) ++ [d] |};
       graph_log := graph_log s |}).

(** [self.graph.<call>]: the persister catches and logs its own failures,
    so the call never raises into the scanner. *)
Definition graph (c : GraphCall) : M State unit :=
  modify (fun s =>
    {| entities := entities s; graph_log := graph_log s ++ [c] |}).

(* ================================================================== *)
(** * CodeScanner *)
(* ================================================================== *)

Definition supported_extensions (ext : string) : option Language :=
  if String.eqb ext ".java" then Some JAVA_LANGUAGE
  else if String.eqb ext ".ts" then Some TS_LANGUAGE
  else if String.eqb ext ".tsx" then Some TS_LANGUAGE
  else None.

(** [self.QUERIES.get(lang, {})], as the items of the inner dictionary *)
Definition QUERIES (lang : string) : list (string * Pattern) :=
  if String.eqb lang "java" then
    [("method_calls", java_method_calls);
     ("imports", java_imports);
     ("inheritance", java_inheritance)]
  else if String.eqb lang "typescript" then
    [("method_calls", ts_method_calls);
     ("imports", ts_imports);
     ("inheritance", ts_inheritance)]
  else [].

(** [source_code[node.start_byte:node.end_byte].decode('utf-8')].
    Slicing works on [bytes] and on [str] alike and never raises; only
    [bytes] has [decode]. [node] may be the [None] that
    [child_by_field_name] returns. *)
Definition _get_node_text (node : option Node) (source_code : data)
  : result string :=
  match node with
  | None => raise AttributeError
  | Some n =>
    match source_code with
    | Bytes b => decode (slice b (start_byte n) (end_byte n))
    | Str _ => raise AttributeError
    end
  end.

Definition os_path_join (root f : string) : string :=
  if String.eqb root "" then f
  else match rev (list_ascii_of_string root) with
       | c :: _ => if Ascii.eqb c slash then (root ++ f)%string
                   else (root ++ "/" ++ f)%string
       | [] => f
       end.

(** the span test [e['start_byte'] <= b < e['end_byte']] *)
Definition encloses {E} `{Entity E} (b : nat) (e : E) : bool :=
  (span_start e <=? b) && (b <? span_end e).

(** The node's own part of [_extract_entities], before its children. *)
Definition visit (node : Node) (source_code : data) (file_path : string)
  : M State unit :=
  if String.eqb (type node) "class_declaration" then
    class_name <- lift (_get_node_text (child_by_field_name node "name") source_code) ;;
    append_class {| c_name := class_name; c_file := file_path;
                    c_start_byte := start_byte node;
                    c_end_byte := end_byte node |} ;;
    graph (create_class_node class_name file_path)
  else if String.eqb (type node) "method_declaration" then
    method_name <- lift (_get_node_text (child_by_field_name node "name") source_code) ;;
    s <- get ;;
    match find (encloses (start_byte node)) (classes (entities s)) with
    | Some current_class =>
      append_method {| m_name := method_name;
                       m_class := c_name current_class;
                       m_file := file_path;
                       m_start_byte := start_byte node;
                       m_end_byte := end_byte node |} ;;
      graph (create_method_node method_name (c_name current_class) file_path)
    | None => ret tt
    end
  else ret tt.

(** [_extract_entities(node, source_code, entities, file_path)] as it runs
    while the interpreter's recursion limit is not reached; the traversal
    that counts the frames is [_extract_entities_bounded]. *)
Fixpoint _extract_entities (node : Node) (source_code : data)
         (file_path : string) {struct node} : M State unit :=
  visit node source_code file_path ;;
  match node with
  | mkNode _ _ _ cs =>
    (fix each (l : list (option string * Node)) : M State unit :=
       match l with
       | [] => ret tt
       | (_, child) :: r =>
         _extract_entities child source_code file_path ;; each r
       end) cs
  end.

(** [_find_enclosing_entity(node_byte, entities, file_path, entity_type)];
    the caller's [entities[entity_type]] is the list passed here. *)
Definition _find_enclosing_entity {E} `{Entity E}
           (node_byte : nat) (es : list E) (file_path : string) : option E :=
  let candidates := filter (fun e => String.eqb (file e) file_path) es in
  find (encloses node_byte) candidates.

(** ** Dependency extraction *)

(** The inner loop of the two call branches: the text of the last capture
    tagged [method] and of the last tagged [object], over ALL captures of
    the query. *)
Fixpoint call_companions (captures : Captures) (source_code : data)
         (method_name object_name : option string)
  : result (option string * option string) :=
  match captures with
  | [] => ok (method_name, object_name)
  | (child_node, child_tag) :: rest =>
    if String.eqb child_tag "method" then
      t <~ _get_node_text (Some child_node) source_code ;;
      call_companions rest source_code (Some t) object_name
    else if String.eqb child_tag "object" then
      t <~ _get_node_text (Some child_node) source_code ;;
      call_companions rest source_code method_name (Some t)
    else call_companions rest source_code method_name object_name
  end.

(** [x and y] on two optional strings, as a condition *)
Definition both_truthy (a b : option string) : option (string * string) :=
  match a, b with
  | Some x, Some y => if truthy x && truthy y then Some (x, y) else None
  | _, _ => None
  end.

(** The body under [if tag == "call"], written twice in the source (Java
    and TypeScript) with the same text. *)
Definition process_call (node : Node) (captures : Captures)
           (source_code : data) (file_path : string) : M State unit :=
  names <- lift (call_companions captures source_code None None) ;;
  match both_truthy (fst names) (snd names) with
  | Some (method_name, object_name) =>
    let callee := (object_name ++ "." ++ method_name)%string in
    s <- get ;;
    let enclosing_class :=
      _find_enclosing_entity (start_byte node) (classes (entities s)) file_path in
    let enclosing_method :=
      _find_enclosing_entity (start_byte node) (methods (entities s)) file_path in
    match enclosing_class, enclosing_method with
    | Some c, Some m =>
      append_dependency
        [("type", VStr "method_call");
         ("caller_class", VStr (name c));
         ("caller_method", VStr (name m));
         ("callee", VStr callee);
         ("file", VStr file_path)]
    | _, _ => ret tt
    end
  | None => ret tt
  end.

(** the texts of all captures tagged [interface] *)
Fixpoint collect_interfaces (captures : Captures) (source_code : data)
  : result (list string) :=
  match captures with
  | [] => ok []
  | (child_node, child_tag) :: rest =>
    if String.eqb child_tag "interface" then
      t <~ _get_node_text (Some child_node) source_code ;;
      ts <~ collect_interfaces rest source_code ;;
      ok (t :: ts)
    else collect_interfaces rest source_code
  end.

(** the first capture tagged [module_path], stripped of quotes; the loop
    breaks there *)
Fixpoint first_module_path (captures : Captures) (source_code : data)
  : result (option string) :=
  match captures with
  | [] => ok None
  | (n, t) :: rest =>
    if String.eqb t "module_path" then
      module_path_str <~ _get_node_text (Some n) source_code ;;
      ok (Some (strip is_quote module_path_str))
    else first_module_path rest source_code
  end.

(** One iteration of the outer loop of [_process_dependency]. *)
Definition process_capture (captures : Captures) (lang : string)
           (source_code : data) (file_path : string)
           (cap : Node * string) : M State unit :=
  let (node, tag) := cap in
  if String.eqb lang "java" then
    if String.eqb tag "call" then
      process_call node captures source_code file_path
    else if String.eqb tag "import_path" then
      import_path <- lift (_get_node_text (Some node) source_code) ;;
      append_dependency
        [("type", VStr "import");
         ("file", VStr file_path);
         ("import_path", VStr import_path)]
    else if String.eqb tag "class_name" then
      class_name <- lift (_get_node_text (Some node) source_code) ;;
      interfaces <- lift (collect_interfaces captures source_code) ;;
      append_dependency
        [("type", VStr "inheritance");
         ("class", VStr class_name);
         ("file", VStr file_path);
         ("interfaces", VList interfaces)]
    else ret tt
  else if String.eqb lang "typescript" then
    if String.eqb tag "call" then
      process_call node captures source_code file_path
    else if startswith "import" tag then
      module_path <- lift (first_module_path captures source_code) ;;
      match module_path with
      | Some p =>
        if truthy p then
          append_dependency
            [("type", VStr "import");
             ("file", VStr file_path);
             ("import_path", VStr p)]
        else ret tt
      | None => ret tt
      end
    else if String.eqb tag "parent" then
      parent_class <- lift (_get_node_text (Some node) source_code) ;;
      s <- get ;;
      match _find_enclosing_entity (start_byte node)
                                   (classes (entities s)) file_path with
      | Some enclosing_class =>
        append_dependency
          [("type", VStr "inheritance");
           ("class", VStr (name enclosing_class));
           ("file", VStr file_path);
           ("parent", VStr parent_class)]
      | None => ret tt
      end
    else ret tt
  else ret tt.

Definition _process_dependency (captures : Captures) (lang : string)
           (source_code : data) (file_path : string) : M State unit :=
  for_each captures (process_capture captures lang source_code file_path).

(** ** The project scan and the method-source lookup *)

Section Scanner.
Variable P : Provider.

(** [_get_files(project_path)] *)
Definition _get_files (project_path : string) : list string :=
  flat_map (fun rf =>
    flat_map (fun f =>
      match supported_extensions (suffix f) with
      | Some _ => [os_path_join (fst rf) f]
      | None => []
      end) (snd rf)) (os_walk P project_path).

(** [_parse_file(file_path, language)] *)
Definition _parse_file (file_path : string) (language : Language)
  : result Node :=
  source_code <~ read_file P file_path ;;
  ok (parse P language source_code).

(** the body of the loop over the files *)
Definition scan_file (file_path : string) : M State unit :=
  let ext := suffix file_path in
  match supported_extensions ext with
  | None => ret tt                                        (* continue *)
  | Some language =>
    tree <- lift (_parse_file file_path language) ;;
    source_code <- lift (read_file P file_path) ;;
    _extract_entities tree (Bytes source_code) file_path ;;
    let lang := if String.eqb ext ".java" then "java" else "typescript" in
    for_each (QUERIES lang) (fun q =>
      captures <- lift (query P language (snd q) tree) ;;
      _process_dependency captures lang (Bytes source_code) file_path)
  end.

Definition scan_project (project_path : string) : M State Entities :=
  modify (fun s => {| entities := empty_entities;
                      graph_log := graph_log s |}) ;;
  let files := _get_files project_path in
  for_each files scan_file ;;
  s <- get ;;
  for_each (dependencies (entities s))
           (fun dependency => graph (create_dependency dependency)) ;;
  s' <- get ;;
  ret (entities s').

(** the first capture tagged [method_name] decides: its text is taken
    from the DECODED source, and compared with the name asked for *)
Fixpoint find_method_source (captures : Captures) (source_code : string)
         (source_code_bytes : bytes) (method_name : string)
  : result (option string) :=
  match captures with
  | [] => ok None
  | (node, tag) :: rest =>
    if String.eqb tag "method_name" then
      current_method_name <~ _get_node_text (Some node) (Str source_code) ;;
      if String.eqb current_method_name method_name then
        match parent P node with
        | None => raise AttributeError
        | Some p =>
          t <~ decode (slice source_code_bytes (start_byte p) (end_byte p)) ;;
          ok (Some t)
        end
      else find_method_source rest source_code source_code_bytes method_name
    else find_method_source rest source_code source_code_bytes method_name
  end.

(** the [try] block of [get_method_source] *)
Definition get_method_source_body (method_name file_path : string)
  : result (option string) :=
  match supported_extensions (suffix file_path) with
  | None => ok None
  | Some language =>
    tree <~ _parse_file file_path language ;;
    source_code_bytes <~ read_file P file_path ;;
    source_code <~ decode source_code_bytes ;;
    captures <~ query P language method_declaration_pattern tree ;;
    find_method_source captures source_code source_code_bytes method_name
  end.

(** [except Exception: log; return None] *)
Definition get_method_source (method_name file_path : string)
  : option string :=
  match get_method_source_body method_name file_path with
  | inl _ => None
  | inr r => r
  end.
End Scanner.

(* ================================================================== *)
(** * Neo4jGraph: the persister *)
(* ================================================================== *)

(** The property graph behind the driver, with the part of Cypher the
    transactions use. A node is identified by its position in [nodes];
    nothing here deletes a node. A node pattern [(x:L {k: v, ..})] matches
    the nodes labelled [L] whose properties include every [k: v]; MATCH
    binds one row per match, MERGE does the same and creates the node (or
    the relationship) when there is no match. The store is taken to be
    reachable: a transaction fails only by an exception of its own code,
    and a failed transaction changes nothing. *)
Module Neo4j.

Record GNode : Type := { label : string; props : dict }.

Record Rel : Type := { src : nat; rel_type : string; dst : nat }.

Record Graph : Type := { nodes : list GNode; rels : list Rel }.

Definition empty : Graph := {| nodes := []; rels := [] |}.

Definition has_props (pat : dict) (n : GNode) : bool :=
  forallb (fun kv => match dict_get (props n) (fst kv) with
                     | Some v => value_eqb v (snd kv)
                     | None => false
                     end) pat.

Definition matches (lbl : string) (pat : dict) (n : GNode) : bool :=
  String.eqb (label n) lbl && has_props pat n.

Fixpoint find_ids (p : GNode -> bool) (ns : list GNode) (i : nat) : list nat :=
  match ns with
  | [] => []
  | n :: r => if p n then i :: find_ids p r (S i) else find_ids p r (S i)
  end.

(** MATCH (x:lbl {pat}) *)
Definition match_nodes (lbl : string) (pat : dict) (g : Graph) : list nat :=
  find_ids (matches lbl pat) (nodes g) 0.

(** MERGE (x:lbl {pat}) *)
Definition merge_node (lbl : string) (pat : dict) (g : Graph)
  : Graph * list nat :=
  match match_nodes lbl pat g with
  | [] => ({| nodes := nodes g ++ [{| label := lbl; props := pat |}];
              rels := rels g |},
           [List.length (nodes g)])
  | ids => (g, ids)
  end.

Definition rel_eqb (a b : Rel) : bool :=
  (src a =? src b) && String.eqb (rel_type a) (rel_type b) && (dst a =? dst b).

Definition has_rel (r : Rel) (g : Graph) : bool := existsb (rel_eqb r) (rels g).

(** MERGE (a)-[:t]->(b) for bound [a], [b] *)
Definition merge_rel (r : Rel) (g : Graph) : Graph :=
  if has_rel r g then g
  else {| nodes := nodes g; rels := rels g ++ [r] |}.

Definition merge_rels (rs : list Rel) (g : Graph) : Graph :=
  fold_left (fun g r => merge_rel r g) rs g.

(** the rows of two bound variables *)
Definition rows (xs ys : list nat) : list (nat * nat) :=
  flat_map (fun x => map (fun y => (x, y)) ys) xs.

(** The logger: each record's level and the constant head of its text. *)
Inductive LogRecord : Type :=
| info (msg : string)
| warning (msg : string)
| error (msg : string).

(** MERGE (c:Class {name: $name, file: $file}) *)
Definition _create_class_node_transaction (class_name file_path : string)
           (g : Graph) : Graph :=
  fst (merge_node "Class" [("name", VStr class_name); ("file", VStr file_path)] g).

(** MERGE (m:Method {name, class, file})
    MERGE (c:Class {name: $class_name, file: $file})
    MERGE (c)-[:HAS_METHOD]->(m) *)
Definition _create_method_node_transaction
           (method_name class_name file_path : string) (g : Graph) : Graph :=
  let (g1, ms) := merge_node "Method"
                    [("name", VStr method_name); ("class", VStr class_name);
                     ("file", VStr file_path)] g in
  let (g2, cs) := merge_node "Class"
                    [("name", VStr class_name); ("file", VStr file_path)] g1 in
  merge_rels (map (fun mc => {| src := snd mc; rel_type := "HAS_METHOD";
                                dst := fst mc |}) (rows ms cs)) g2.

(** [dependency_data['callee'].split('.', 1)], unpacked into two names *)
Definition split_callee (dependency_data : dict) : result (string * string) :=
  callee <~ getitem dependency_data "callee" ;;
  match callee with
  | VStr s => unpack2 (split_dot1 s)
  | _ => raise AttributeError
  end.

(** MATCH (c) .. MERGE (i:lbl {pat}) MERGE (c)-[:t]->(i), one row per [c] *)
Definition link_each (cs : list nat) (lbl : string) (pat : dict) (t : string)
           (g : Graph) : Graph :=
  fold_left (fun g c =>
    let (g1, targets) := merge_node lbl pat g in
    merge_rels (map (fun i => {| src := c; rel_type := t; dst := i |}) targets) g1)
    cs g.

Definition _create_dependency_transaction (dependency_data : dict) (g : Graph)
  : result (Graph * list LogRecord) :=
  ty <~ getitem dependency_data "type" ;;
  if value_eqb ty (VStr "method_call") then
    match split_callee dependency_data with
    | inl ValueError => ok (g, [warning "Invalid callee format"])
    | inl e => raise e
    | inr _ =>
      caller_class <~ getitem dependency_data "caller_class" ;;
      caller_method <~ getitem dependency_data "caller_method" ;;
      callee <~ getitem dependency_data "callee" ;;
      let ccs := match_nodes "Class" [("name", caller_class)] g in
      let cms := match_nodes "Method" [("name", caller_method)] g in
      let bound :=
        filter (fun mc => has_rel {| src := fst mc; rel_type := "BELONGS_TO";
                                     dst := snd mc |} g) (rows cms ccs) in
      ok (link_each (map fst bound) "Method" [("name", callee)] "CALLS" g,
          [info "Created method call"])
    end
  else if value_eqb ty (VStr "import") then
    f <~ getitem dependency_data "file" ;;
    import_path <~ getitem dependency_data "import_path" ;;
    let cs := match_nodes "Class" [("file", f)] g in
    ok (link_each cs "Import" [("path", import_path)] "IMPORTS" g,
        [info "Created import"])
  else if value_eqb ty (VStr "inheritance") then
    if contains dependency_data "interfaces" then
      interfaces <~ getitem dependency_data "interfaces" ;;
      (* [for interface in ...]: a list gives its items, a string its
         characters, None is not iterable *)
      items <~ match interfaces with
               | VList l => ok l
               | VStr s => ok (chars s)
               | VNone => raise TypeError
               end ;;
      (* the closing log line reads ['class'] even when the loop is empty *)
      class_name <~ getitem dependency_data "class" ;;
      match items with
      | [] => ok (g, [info "Created implements relationship"])
      | _ =>
        f <~ getitem dependency_data "file" ;;
        ok (fold_left (fun g interface =>
              link_each (match_nodes "Class" [("name", class_name); ("file", f)] g)
                        "Interface" [("name", VStr interface)] "IMPLEMENTS" g)
              items g,
            [info "Created implements relationship"])
      end
    else if contains dependency_data "parent" then
      class_name <~ getitem dependency_data "class" ;;
      parent_name <~ getitem dependency_data "parent" ;;
      f <~ getitem dependency_data "file" ;;
      let cs := match_nodes "Class" [("name", class_name); ("file", f)] g in
      ok (link_each cs "Class" [("name", parent_name)] "EXTENDS" g,
          [info "Created extends relationship"])
    else ok (g, [])
  else ok (g, []).

Record Store : Type := { graph_of : Graph; log_of : list LogRecord }.

Definition empty_store : Store := {| graph_of := empty; log_of := [] |}.

(** The public methods: run the transaction, log, swallow exceptions. *)
Definition run_call (c : GraphCall) (st : Store) : Store :=
  match c with
  | create_class_node class_name file_path =>
    {| graph_of := _create_class_node_transaction class_name file_path (graph_of st);
       log_of := log_of st ++ [info "Created class node"] |}
  | create_method_node method_name class_name file_path =>
    {| graph_of := _create_method_node_transaction
                     method_name class_name file_path (graph_of st);
       log_of := log_of st ++ [info "Created method node"] |}
  | create_dependency dependency_data =>
    match _create_dependency_transaction dependency_data (graph_of st) with
    | inr (g, lines) => {| graph_of := g; log_of := log_of st ++ lines |}
    | inl _ => {| graph_of := graph_of st;
                  log_of := log_of st ++ [error "Error creating dependency"] |}
    end
  end.

(** the store after a sequence of calls *)
Definition replay (cs : list GraphCall) (st : Store) : Store :=
  fold_left (fun st c => run_call c st) cs st.

End Neo4j.

(* ================================================================== *)
(** * Pre-order listing, well-nested trees, and the spec's resolver *)
(* ================================================================== *)

(** the nodes of a tree in the order the traversal meets them *)
Fixpoint preorder (n : Node) : list Node :=
  n :: match n with
       | mkNode _ _ _ cs =>
         (fix each (l : list (option string * Node)) : list Node :=
            match l with
            | [] => []
            | (_, child) :: r => preorder child ++ each r
            end) cs
       end.

(** What a parser guarantees of spans: a node's span is an interval, its
    children lie inside it, in order and without overlap. *)
Fixpoint well_nested (n : Node) : bool :=
  match n with
  | mkNode _ s e cs =>
    (s <=? e) &&
    (fix each (lo : nat) (l : list (option string * Node)) : bool :=
       match l with
       | [] => true
       | (_, child) :: r =>
         (lo <=? start_byte child) && (end_byte child <=? e) &&
         well_nested child && each (end_byte child) r
       end) s cs
  end.

(** The enclosing class as the specification words it: among the classes
    of the current file whose span contains the offset, one of smallest
    span (the earliest such, if several have that span). *)
Definition spec_smallest_enclosing_class
           (node_start : nat) (emitted : list ClassEntity) (file_path : string)
  : option ClassEntity :=
  fold_left
    (fun best c =>
       if String.eqb (c_file c) file_path && encloses node_start c then
         match best with
         | None => Some c
         | Some b =>
           if c_end_byte c - c_start_byte c <? c_end_byte b - c_start_byte b
           then Some c else Some b
         end
       else best)
    emitted None.

(** A persister call that upserts an entity, as opposed to an edge. *)
Definition is_upsert (c : GraphCall) : bool :=
  match c with
  | create_class_node _ _ | create_method_node _ _ _ => true
  | create_dependency _ => false
  end.

Definition is_edge_creation (c : GraphCall) : bool := negb (is_upsert c).

(** the text of a dictionary entry that holds a string *)
Definition str_of (d : dict) (k : string) : option string :=
  match dict_get d k with
  | Some (VStr s) => Some s
  | _ => None
  end.

Definition is_type (ty : string) (d : dict) : bool :=
  match str_of d "type" with
  | Some t => String.eqb t ty
  | None => false
  end.

(* ================================================================== *)
(** * Sample projects *)
(* ================================================================== *)

Module Examples.

Definition leaf (t : string) (s e : nat) : Node := mkNode t s e [].

Definition field_eqb (a b : option string) : bool :=
  match a, b with
  | Some x, Some y => String.eqb x y
  | None, None => true
  | _, _ => false
  end.

Fixpoint node_eqb (a b : Node) : bool :=
  match a, b with
  | mkNode t s e cs, mkNode t' s' e' cs' =>
    String.eqb t t' && (s =? s') && (e =? e') &&
    (fix each (l l' : list (option string * Node)) : bool :=
       match l, l' with
       | [], [] => true
       | (f, c) :: r, (f', c') :: r' =>
         field_eqb f f' && node_eqb c c' && each r r'
       | _, _ => false
       end) cs cs'
  end.

(** [node.parent] within a given tree *)
Fixpoint parent_in (root n : Node) : option Node :=
  match root with
  | mkNode _ _ _ cs =>
    (fix each (l : list (option string * Node)) : option Node :=
       match l with
       | [] => None
       | (_, c) :: r =>
         if node_eqb c n then Some root
         else match parent_in c n with
              | Some p => Some p
              | None => each r
              end
       end) cs
  end.

(** a project of one file, with the captures each pattern yields on it *)
Definition one_file (dir file_name : string) (source : string) (root : Node)
           (captures : Pattern -> result Captures) : Provider :=
  {| os_walk := fun _ => [(dir, [file_name])];
     read_file := fun p =>
       if String.eqb p (os_path_join dir file_name)
       then ok (list_byte_of_string source) else raise OSError;
     parse := fun _ _ => root;
     query := fun _ pat _ => captures pat;
     parent := parent_in root |}.

(** ** [class A { void f() {} }] *)

Definition simple_source : string := "class A { void f() {} }".

Definition simple_f_name : Node := leaf "identifier" 15 16.

Definition simple_f : Node :=
  mkNode "method_declaration" 10 21
    [(Some "type", leaf "void_type" 10 14);
     (Some "name", simple_f_name);
     (Some "parameters",
      mkNode "formal_parameters" 16 18 [(None, leaf "(" 16 17); (None, leaf ")" 17 18)]);
     (Some "body",
      mkNode "block" 19 21 [(None, leaf "{" 19 20); (None, leaf "}" 20 21)])].

Definition simple_root : Node :=
  mkNode "program" 0 23
    [(None,
      mkNode "class_declaration" 0 23
        [(None, leaf "class" 0 5);
         (Some "name", leaf "identifier" 6 7);
         (Some "body",
          mkNode "class_body" 8 23
            [(None, leaf "{" 8 9); (None, simple_f); (None, leaf "}" 22 23)])])].

Definition simple_project : Provider :=
  one_file "proj" "A.java" simple_source simple_root
    (fun pat =>
       match pat with
       | method_declaration_pattern =>
         ok [(simple_f, "method"); (simple_f_name, "method_name")]
       | java_method_calls | java_imports | java_inheritance => ok []
       | _ => raise QueryError
       end).

(** ** [class A { class B { void f() { x.g(); } } }] *)

Definition nested_source : string :=
  "class A { class B { void f() { x.g(); } } }".

Definition nested_x : Node := leaf "identifier" 31 32.
Definition nested_g : Node := leaf "identifier" 33 34.

Definition nested_call : Node :=
  mkNode "method_invocation" 31 36
    [(Some "object", nested_x);
     (None, leaf "." 32 33);
     (Some "name", nested_g);
     (Some "arguments",
      mkNode "argument_list" 34 36 [(None, leaf "(" 34 35); (None, leaf ")" 35 36)])].

Definition nested_f : Node :=
  mkNode "method_declaration" 20 39
    [(Some "type", leaf "void_type" 20 24);
     (Some "name", leaf "identifier" 25 26);
     (Some "parameters",
      mkNode "formal_parameters" 26 28 [(None, leaf "(" 26 27); (None, leaf ")" 27 28)]);
     (Some "body",
      mkNode "block" 29 39
        [(None, leaf "{" 29 30);
         (None, mkNode "expression_statement" 31 37
                  [(None, nested_call); (None, leaf ";" 36 37)]);
         (None, leaf "}" 38 39)])].

Definition nested_B : Node :=
  mkNode "class_declaration" 10 41
    [(None, leaf "class" 10 15);
     (Some "name", leaf "identifier" 16 17);
     (Some "body",
      mkNode "class_body" 18 41
        [(None, leaf "{" 18 19); (None, nested_f); (None, leaf "}" 40 41)])].

Definition nested_root : Node :=
  mkNode "program" 0 43
    [(None,
      mkNode "class_declaration" 0 43
        [(None, leaf "class" 0 5);
         (Some "name", leaf "identifier" 6 7);
         (Some "body",
          mkNode "class_body" 8 43
            [(None, leaf "{" 8 9); (None, nested_B); (None, leaf "}" 42 43)])])].

Definition nested_calls : Captures :=
  [(nested_call, "call"); (nested_x, "object"); (nested_g, "method")].

Definition nested_project : Provider :=
  one_file "proj" "N.java" nested_source nested_root
    (fun pat =>
       match pat with
       | java_method_calls => ok nested_calls
       | java_imports | java_inheritance => ok []
       | method_declaration_pattern =>
         ok [(nested_f, "method"); (leaf "identifier" 25 26, "method_name")]
       | _ => raise QueryError
       end).

(** ** [class A { void f() { b.g(); } } class B { void g() {} }] *)

Definition pair_source : string :=
  "class A { void f() { b.g(); } } class B { void g() {} }".

Definition pair_b : Node := leaf "identifier" 21 22.
Definition pair_g : Node := leaf "identifier" 23 24.

Definition pair_call : Node :=
  mkNode "method_invocation" 21 26
    [(Some "object", pair_b);
     (None, leaf "." 22 23);
     (Some "name", pair_g);
     (Some "arguments",
      mkNode "argument_list" 24 26 [(None, leaf "(" 24 25); (None, leaf ")" 25 26)])].

Definition pair_f : Node :=
  mkNode "method_declaration" 10 29
    [(Some "type", leaf "void_type" 10 14);
     (Some "name", leaf "identifier" 15 16);
     (Some "parameters",
      mkNode "formal_parameters" 16 18 [(None, leaf "(" 16 17); (None, leaf ")" 17 18)]);
     (Some "body",
      mkNode "block" 19 29
        [(None, leaf "{" 19 20);
         (None, mkNode "expression_statement" 21 27
                  [(None, pair_call); (None, leaf ";" 26 27)]);
         (None, leaf "}" 28 29)])].

Definition pair_method_g : Node :=
  mkNode "method_declaration" 42 53
    [(Some "type", leaf "void_type" 42 46);
     (Some "name", leaf "identifier" 47 48);
     (Some "parameters",
      mkNode "formal_parameters" 48 50 [(None, leaf "(" 48 49); (None, leaf ")" 49 50)]);
     (Some "body",
      mkNode "block" 51 53 [(None, leaf "{" 51 52); (None, leaf "}" 52 53)])].

Definition pair_root : Node :=
  mkNode "program" 0 55
    [(None,
      mkNode "class_declaration" 0 31
        [(None, leaf "class" 0 5);
         (Some "name", leaf "identifier" 6 7);
         (Some "body",
          mkNode "class_body" 8 31
            [(None, leaf "{" 8 9); (None, pair_f); (None, leaf "}" 30 31)])]);
     (None,
      mkNode "class_declaration" 32 55
        [(None, leaf "class" 32 37);
         (Some "name", leaf "identifier" 38 39);
         (Some "body",
          mkNode "class_body" 40 55
            [(None, leaf "{" 40 41); (None, pair_method_g); (None, leaf "}" 54 55)])])].

Definition pair_calls : Captures :=
  [(pair_call, "call"); (pair_b, "object"); (pair_g, "method")].

Definition pair_project : Provider :=
  one_file "proj" "AB.java" pair_source pair_root
    (fun pat =>
       match pat with
       | java_method_calls => ok pair_calls
       | java_imports | java_inheritance => ok []
       | method_declaration_pattern =>
         ok [(pair_f, "method"); (leaf "identifier" 15 16, "method_name");
             (pair_method_g, "method"); (leaf "identifier" 47 48, "method_name")]
       | _ => raise QueryError
       end).

(** ** [class C implements X, Y {}] *)

Definition implements_source : string := "class C implements X, Y {}".

Definition implements_C : Node := leaf "identifier" 6 7.
Definition implements_X : Node := leaf "type_identifier" 19 20.
Definition implements_Y : Node := leaf "type_identifier" 22 23.



Definition implements_merged : Captures :=
  [(implements_C, "class_name"); (implements_X, "interface");
   (implements_Y, "interface")].


(** ** [import A from './a'; import B from './b';] *)

Definition imports_source : string :=
  "import A from './a'; import B from './b';".

Definition imports_A : Node := leaf "identifier" 7 8.
Definition imports_a : Node :=
  mkNode "string" 14 19 [(None, leaf "string_fragment" 15 18)].
Definition imports_B : Node := leaf "identifier" 28 29.
Definition imports_b : Node :=
  mkNode "string" 35 40 [(None, leaf "string_fragment" 36 39)].

Definition imports_captures : Captures :=
  [(imports_A, "import_default"); (imports_a, "module_path");
   (imports_B, "import_default"); (imports_b, "module_path")].

(** ** [import { x } from './c';] *)

Definition named_import_source : string := "import { x } from './c';".

Definition named_import_captures : Captures :=
  [(mkNode "named_imports" 7 12
      [(None, leaf "{" 7 8);
       (None, mkNode "import_specifier" 9 10 [(Some "name", leaf "identifier" 9 10)]);
       (None, leaf "}" 11 12)],
    "named_imports");
   (mkNode "string" 18 23 [(None, leaf "string_fragment" 19 22)], "module_path")].

End Examples.

(** Induction on trees: a property holds of a node when it holds of its
    children. *)
Section NodeInduction.
Variable P : Node -> Prop.
Hypothesis step : forall t s e cs,
    Forall (fun fc => P (snd fc)) cs -> P (mkNode t s e cs).

Fixpoint Node_nested_ind (n : Node) : P n :=
  match n with
  | mkNode t s e cs =>
    step t s e cs
      ((fix each (l : list (option string * Node))
          : Forall (fun fc => P (snd fc)) l :=
          match l with
          | [] => Forall_nil _
          | (f, c) :: r => Forall_cons (f, c) (Node_nested_ind c) (each r)
          end) cs)
  end.
End NodeInduction.

(* ================================================================== *)
(** * Vocabulary of the statements *)
(* ================================================================== *)

(** A program of the scanner keeps a relation between the state it starts
    in and the state it leaves, whether or not it raises. *)
Definition preserves {S A : Type} (R : S -> S -> Prop) (m : M S A) : Prop :=
  forall s, R s (fst (m s)).

(** [s'] has the list [proj s] followed by new items that all satisfy [Q]. *)
Definition extends {X : Type} (proj : State -> list X) (Q : X -> Prop)
           (s s' : State) : Prop :=
  exists new, proj s' = proj s ++ new /\ Forall Q new.

Definition deps_of (s : State) : list dict := dependencies (entities s).
Definition classes_of (s : State) : list ClassEntity := classes (entities s).
Definition methods_of (s : State) : list MethodEntity := methods (entities s).

(** some entity of the file encloses the offset *)
Definition enclosed_by_some {E} `{Entity E} (b : nat) (es : list E)
           (file_path : string) : bool :=
  existsb (fun e => String.eqb (file e) file_path && encloses b e) es.

(** The dependency records the extraction of a file can append: the five
    dictionary literals of [_process_dependency], each under the language
    whose branch holds it. *)
Inductive emitted_by (lang file_path : string) : dict -> Prop :=
| emitted_call c m object_name method_name :
    lang = "java" \/ lang = "typescript" ->
    emitted_by lang file_path
      [("type", VStr "method_call");
       ("caller_class", VStr c);
       ("caller_method", VStr m);
       ("callee", VStr (object_name ++ "." ++ method_name)%string);
       ("file", VStr file_path)]
| emitted_java_import import_path :
    lang = "java" ->
    emitted_by lang file_path
      [("type", VStr "import");
       ("file", VStr file_path);
       ("import_path", VStr import_path)]
| emitted_implements class_name interfaces :
    lang = "java" ->
    emitted_by lang file_path
      [("type", VStr "inheritance");
       ("class", VStr class_name);
       ("file", VStr file_path);
       ("interfaces", VList interfaces)]
| emitted_ts_import module_path :
    lang = "typescript" ->
    emitted_by lang file_path
      [("type", VStr "import");
       ("file", VStr file_path);
       ("import_path", VStr module_path)]
| emitted_extends class_name parent_class :
    lang = "typescript" ->
    emitted_by lang file_path
      [("type", VStr "inheritance");
       ("class", VStr class_name);
       ("file", VStr file_path);
       ("parent", VStr parent_class)].

(** the capture's text can be read from the source and is not empty *)
Definition readable (source_code : data) (cap : Node * string) : bool :=
  match _get_node_text (Some (fst cap)) source_code with
  | inr t => truthy t
  | inl _ => false
  end.

Definition has_tag (tag : string) (captures : Captures) : bool :=
  existsb (fun cap => String.eqb (snd cap) tag) captures.

(** an optional text that is not the empty string *)
Definition usable (o : option string) : Prop :=
  match o with
  | Some t => truthy t = true
  | None => True
  end.

(** the method entity [visit] appends for a node *)
Definition method_entity_of (node : Node) (method_name class_name file_path : string)
  : MethodEntity :=
  {| m_name := method_name; m_class := class_name; m_file := file_path;
     m_start_byte := start_byte node; m_end_byte := end_byte node |}.

(** the record [process_call] appends *)
Definition call_record (caller_class caller_method callee file_path : string)
  : dict :=
  [("type", VStr "method_call");
   ("caller_class", VStr caller_class);
   ("caller_method", VStr caller_method);
   ("callee", VStr callee);
   ("file", VStr file_path)].

(** the children part of [well_nested], from a lower bound [lo] *)
Fixpoint children_nested (e lo : nat) (cs : list (option string * Node)) : bool :=
  match cs with
  | [] => true
  | (_, child) :: r =>
    (lo <=? start_byte child) && (end_byte child <=? e) &&
    well_nested child && children_nested e (end_byte child) r
  end.

(** The method's owner is the first class of [cs] that encloses its
    start, the one whose name it records; when that class is of the
    method's file, its span contains the method's span. *)
Definition owner_contains (file_path : string) (cs : list ClassEntity)
           (m : MethodEntity) : Prop :=
  m_file m = file_path /\
  exists c, find (encloses (m_start_byte m)) cs = Some c /\
            m_class m = c_name c /\
            (c_file c = file_path ->
             c_start_byte c <= m_start_byte m /\ m_end_byte m <= c_end_byte c).

(** Every class of the file listed so far either ends by [lo] or spans
    the whole of [a, b). *)
Definition settled_before (file_path : string) (lo a b : nat)
           (cs : list ClassEntity) : Prop :=
  forall c, In c cs -> c_file c = file_path ->
            c_end_byte c <= lo \/ (c_start_byte c <= a /\ b <= c_end_byte c).

(** From [s] to [s']: new classes of the file, ending by [b], and new
    methods, each inside its owner. *)
Definition grows_within (file_path : string) (b : nat) (s s' : State) : Prop :=
  (exists cnew, classes_of s' = classes_of s ++ cnew /\
                Forall (fun c => c_file c = file_path /\ c_end_byte c <= b) cnew) /\
  (exists mnew, methods_of s' = methods_of s ++ mnew /\
                Forall (owner_contains file_path (classes_of s')) mnew).

(** the graph after one call of the persister *)
Definition graph_after (c : GraphCall) (g : Neo4j.Graph) : Neo4j.Graph :=
  Neo4j.graph_of (Neo4j.run_call c {| Neo4j.graph_of := g; Neo4j.log_of := [] |}).

(** The node patterns of the two upserts: a class by (name, file), a
    method by (name, class, file). *)
Inductive upsert_pattern : string -> dict -> Prop :=
| class_pattern class_name file_path :
    upsert_pattern "Class" [("name", VStr class_name); ("file", VStr file_path)]
| method_pattern method_name class_name file_path :
    upsert_pattern "Method"
      [("name", VStr method_name); ("class", VStr class_name);
       ("file", VStr file_path)].

Definition present (lbl : string) (pat : dict) (g : Neo4j.Graph) : Prop :=
  Neo4j.match_nodes lbl pat g <> [].

(** An upsert has nothing left to do on [g]: its nodes are there, and
    every one of its class nodes has the method. *)
Definition settled (c : GraphCall) (g : Neo4j.Graph) : Prop :=
  match c with
  | create_class_node class_name file_path =>
    present "Class" [("name", VStr class_name); ("file", VStr file_path)] g
  | create_method_node method_name class_name file_path =>
    present "Method" [("name", VStr method_name); ("class", VStr class_name);
                      ("file", VStr file_path)] g /\
    present "Class" [("name", VStr class_name); ("file", VStr file_path)] g /\
    forall m c,
      In m (Neo4j.match_nodes "Method"
              [("name", VStr method_name); ("class", VStr class_name);
               ("file", VStr file_path)] g) ->
      In c (Neo4j.match_nodes "Class"
              [("name", VStr class_name); ("file", VStr file_path)] g) ->
      Neo4j.has_rel {| Neo4j.src := c; Neo4j.rel_type := "HAS_METHOD";
                       Neo4j.dst := m |} g = true
  | create_dependency _ => True
  end.

(** [g'] has the relationships of [g], and matches every upsert pattern
    that [g] had a node for with the same nodes. *)
Definition keeps (g g' : Neo4j.Graph) : Prop :=
  (forall lbl pat, upsert_pattern lbl pat -> present lbl pat g ->
                   Neo4j.match_nodes lbl pat g' = Neo4j.match_nodes lbl pat g) /\
  (forall r, Neo4j.has_rel r g = true -> Neo4j.has_rel r g' = true).

(** the language key [scan_project] derives from a path *)
Definition lang_of (file_path : string) : string :=
  if String.eqb (suffix file_path) ".java" then "java" else "typescript".

(** a record the scan of some file can append, under that file's language *)
Definition emitted (d : dict) : Prop :=
  exists file_path, emitted_by (lang_of file_path) file_path d.

(** [entities = {'classes': [], 'methods': [], 'dependencies': []}] *)
Definition fresh (s : State) : State :=
  {| entities := empty_entities; graph_log := graph_log s |}.

(** the first phase of [scan_project]: the loop over the files *)
Definition first_phase (P : Provider) (project_path : string) (s : State)
  : State * result unit :=
  for_each (_get_files P project_path) (scan_file P) (fresh s).

(** [g'] has the relationships of [g] and then only ones of type [t] *)
Definition only_adds (t : string) (g g' : Neo4j.Graph) : Prop :=
  exists new, Neo4j.rels g' = Neo4j.rels g ++ new /\
              Forall (fun r => Neo4j.rel_type r = t) new.



(* ================================================================== *)
(** * Neo4jGraph: clearing the database *)
(* ================================================================== *)

Module Neo4jAdmin.

(** MATCH (n) DETACH DELETE n *)
Definition _clear_db_transaction (g : Neo4j.Graph) : Neo4j.Graph := Neo4j.empty.

(** [clear_database]: run the transaction, log *)
Definition clear_database (st : Neo4j.Store) : Neo4j.Store :=
  {| Neo4j.graph_of := _clear_db_transaction (Neo4j.graph_of st);
     Neo4j.log_of := Neo4j.log_of st ++ [Neo4j.info "Database cleared successfully."] |}.

End Neo4jAdmin.

(* ================================================================== *)
(** * GeminiLLMIntegration: the callers of [get_method_source] *)
(* ================================================================== *)

Module Gemini.

(** The generative model and the standard library, as the methods use
    them: [generate_content(prompt)] followed by [response.text] either
    raises (the exception's text is kept) or yields the text; [strip] is
    [str.strip()]. *)
Record Model : Type := {
  generate_content : string -> string + string;
  strip : string -> string
}.

Definition nl : string := String (ascii_of_nat 10) EmptyString.

Definition not_found : string :=
  "Error: Method not found or source code could not be retrieved.".

(** [try: return model.generate_content(prompt).text.strip()
     except Exception as e: return f"Error calling Gemini API: {e}"] *)
Definition ask (m : Model) (prompt : string) : string :=
  match generate_content m prompt with
  | inr text => strip m text
  | inl e => ("Error calling Gemini API: " ++ e)%string
  end.

Definition language_tag_of (file_path : string) : string :=
  if String.eqb (suffix file_path) ".java" then "java" else "typescript".

Definition summarize_method (m : Model) (P : Provider)
           (method_name file_path : string) : string :=
  match get_method_source P method_name file_path with
  | None => not_found
  | Some source_code =>
    let language_tag := language_tag_of file_path in
    ask m (nl ++ "    You are a helpful code assistant.  Summarize the following method in one sentence:"
              ++ nl ++ nl
              ++ "    " ++ language_tag ++ nl
              ++ "    " ++ source_code ++ nl
              ++ "    " ++ nl
              ++ "    Summary:" ++ nl
              ++ "    ")%string
  end.

Definition generate_javadoc (m : Model) (P : Provider)
           (method_name file_path : string) : string :=
  match get_method_source P method_name file_path with
  | None => not_found
  | Some source_code =>
    ask m (nl ++ "    You are a helpful code assistant. Generate Javadoc-style documentation (or TSDoc if Typescript) for the following method:"
              ++ nl
              ++ "    " ++ source_code ++ nl
              ++ "    Documentation:" ++ nl
              ++ "    ")%string
  end.

Definition suggest_refactoring (m : Model) (P : Provider)
           (method_name file_path : string) : string :=
  match get_method_source P method_name file_path with
  | None => not_found
  | Some source_code =>
    ask m (nl ++ "        You are a helpful code assistant. Suggest refactoring improvements for the following method, focusing on best practices, readability, and maintainability. If no significant improvements are needed, respond with 'No significant refactoring needed.'."
              ++ nl ++ nl
              ++ "        Refactoring Suggestions:" ++ nl
              ++ "        ")%string
  end.

End Gemini.

(* ================================================================== *)
(** * Vocabulary of the further statements *)
(* ================================================================== *)

(** a file name as [os.walk] lists it: no separator inside *)
Definition no_slash (f : string) : bool :=
  forallb (fun c => negb (Ascii.eqb c slash)) (list_ascii_of_string f).

(** the node is one whose name [visit] reads *)
Definition declares (n : Node) : bool :=
  String.eqb (type n) "class_declaration"
  || String.eqb (type n) "method_declaration".

Definition name_readable (source_code : data) (n : Node) : bool :=
  match _get_node_text (child_by_field_name n "name") source_code with
  | inr _ => true
  | inl _ => false
  end.

(** the capture's text can be decoded (it may be empty) *)
Definition decodable (source_code : data) (cap : Node * string) : bool :=
  match _get_node_text (Some (fst cap)) source_code with
  | inr _ => true
  | inl _ => false
  end.

(** the text of a capture, where it can be decoded *)
Definition text_of (source_code : data) (cap : Node * string) : string :=
  match _get_node_text (Some (fst cap)) source_code with
  | inr t => t
  | inl _ => EmptyString
  end.


(** the state with more dependency records *)
Definition add_dependencies (ds : list dict) (s : State) : State :=
  {| entities := {| classes := classes (entities s);
                    methods := methods (entities s);
                    dependencies := dependencies (entities s) ++ ds |};
     graph_log := graph_log s |}.

Definition import_record (file_path import_path : string) : dict :=
  [("type", VStr "import"); ("file", VStr file_path);
   ("import_path", VStr import_path)].

Definition implements_dict (file_path class_name : string)
           (interfaces : list string) : dict :=
  [("type", VStr "inheritance"); ("class", VStr class_name);
   ("file", VStr file_path); ("interfaces", VList interfaces)].

Definition tagged (tag : string) (cap : Node * string) : bool :=
  String.eqb (snd cap) tag.

(** the persister calls that upsert a class, a method *)
Definition is_class_call (c : GraphCall) : bool :=
  match c with create_class_node _ _ => true | _ => false end.

Definition is_method_call (c : GraphCall) : bool :=
  match c with create_method_node _ _ _ => true | _ => false end.

Definition upsert_of_class (c : ClassEntity) : GraphCall :=
  create_class_node (c_name c) (c_file c).

Definition upsert_of_method (m : MethodEntity) : GraphCall :=
  create_method_node (m_name m) (m_class m) (m_file m).

(** From [s] to [s']: the class and method upserts logged are those of the
    entities appended, in the same order. *)
Definition mirrors (s s' : State) : Prop :=
  exists cnew mnew calls,
    classes_of s' = classes_of s ++ cnew /\
    methods_of s' = methods_of s ++ mnew /\
    graph_log s' = graph_log s ++ calls /\
    filter is_class_call calls = map upsert_of_class cnew /\
    filter is_method_call calls = map upsert_of_method mnew.

(** every method entity names a listed class *)
Definition methods_name_classes (s : State) : Prop :=
  forall m, In m (methods_of s) ->
            exists c, In c (classes_of s) /\ c_name c = m_class m.

(** [g'] has the nodes and relationships of [g], in place, and maybe more *)
Definition grows (g g' : Neo4j.Graph) : Prop :=
  (exists ns, Neo4j.nodes g' = Neo4j.nodes g ++ ns) /\
  (exists rs, Neo4j.rels g' = Neo4j.rels g ++ rs).

Definition no_rel_of_type (t : string) (g : Neo4j.Graph) : bool :=
  forallb (fun r => negb (String.eqb (Neo4j.rel_type r) t)) (Neo4j.rels g).

Definition has_dot (s : string) : bool :=
  existsb (Ascii.eqb dot) (list_ascii_of_string s).

Definition ascii_byte (b : byte) : bool := Byte.to_nat b <? 128.

(** the classes, the methods and the call log are the same *)
Definition same_frame (s s' : State) : Prop :=
  classes_of s' = classes_of s /\ methods_of s' = methods_of s /\
  graph_log s' = graph_log s.

(** the invariant [methods_name_classes], as a relation between states *)
Definition keeps_naming (s s' : State) : Prop :=
  methods_name_classes s -> methods_name_classes s'.

(** a project whose one Java file cannot be opened *)
Definition unreadable_project : Provider :=
  {| os_walk := fun _ => [("proj", ["A.java"])];
     read_file := fun _ => raise OSError;
     parse := fun _ _ => Examples.simple_root;
     query := fun _ _ _ => ok [];
     parent := fun _ => None |}.

(** the capture names of the TypeScript imports pattern *)
Definition ts_import_tag (cap : Node * string) : bool :=
  tagged "import_default" cap || tagged "named_imports" cap
  || tagged "wildcard" cap || tagged "module_path" cap.

(** the capture names of the Java inheritance pattern *)
Definition java_inheritance_tag (cap : Node * string) : bool :=
  tagged "class_name" cap || tagged "interface" cap.

(** a persister call as a project scan makes it: an upsert, or the
    creation of a dependency that extraction can record *)
Definition scanned_call (c : GraphCall) : Prop :=
  match c with
  | create_dependency d => emitted d
  | _ => True
  end.

(** the text neither begins nor ends with a quote character *)
Definition clean_ends (s : string) : bool :=
  match list_ascii_of_string s with
  | [] => true
  | c :: r => negb (is_quote c) && negb (is_quote (last (c :: r) c))
  end.

(* ================================================================== *)
(** * The traversal under the interpreter's recursion limit *)
(* ================================================================== *)

(** [_extract_entities] calls itself once per level of the tree, and the
    interpreter refuses a call when no frame is left: it raises
    RecursionError there, and the entities found so far stay. [frames] is
    the number of nested calls still allowed when [_extract_entities] is
    called. The call itself takes one. At a class or method declaration
    the first thing the body does is call [_get_node_text], which takes
    one more: with none left that call raises RecursionError before
    anything is appended. The generator of [next(...)] and the persister's
    method are called at that same depth, so they fit when
    [_get_node_text] did; what the persister does below its own frame is
    the persister's. *)
Inductive Outcome : Type :=
| Returned
| Raised (e : exn)
| RecursionError.

Fixpoint _extract_entities_bounded (frames : nat) (node : Node)
         (source_code : data) (file_path : string) (s : State)
  : State * Outcome :=
  match frames with
  | 0 => (s, RecursionError)
  | S frames_left =>
    if declares node && (frames_left =? 0) then (s, RecursionError)
    else
    match visit node source_code file_path s with
    | (s1, inl e) => (s1, Raised e)
    | (s1, inr _) =>
      (fix each (l : list (option string * Node)) (s : State) : State * Outcome :=
         match l with
         | [] => (s, Returned)
         | (_, child) :: r =>
           match _extract_entities_bounded frames_left child source_code file_path s with
           | (s2, Returned) => each r s2
           | stopped => stopped
           end
         end) (children node) s1
    end
  end.

(** the loop over the children, by name *)
Fixpoint each_child_bounded (frames_left : nat) (source_code : data) (file_path : string)
         (l : list (option string * Node)) (s : State) : State * Outcome :=
  match l with
  | [] => (s, Returned)
  | (_, child) :: r =>
    match _extract_entities_bounded frames_left child source_code file_path s with
    | (s2, Returned) => each_child_bounded frames_left source_code file_path r s2
    | stopped => stopped
    end
  end.

(** the frames the helper calls at a node take below the node's own *)
Definition helper_frames (n : Node) : nat :=
  if declares n then 1 else 0.

(** the frames the traversal of a tree takes: one per level, and one more
    below a declaration for its helper calls *)
Fixpoint frames_needed (n : Node) : nat :=
  match n with
  | mkNode _ _ _ cs =>
    S (Nat.max (helper_frames n)
         ((fix each (l : list (option string * Node)) : nat :=
             match l with
             | [] => 0
             | (_, child) :: r => Nat.max (frames_needed child) (each r)
             end) cs))
  end.

Fixpoint children_frames (cs : list (option string * Node)) : nat :=
  match cs with
  | [] => 0
  | (_, child) :: r => Nat.max (frames_needed child) (children_frames r)
  end.


(** a chain of [depth] nested nodes, none of them a declaration *)
Fixpoint chain (depth : nat) : Node :=
  match depth with
  | 0 => mkNode "identifier" 0 1 []
  | S d => mkNode "binary_expression" 0 1 [(None, chain d)]
  end.

(** ** [class A { void f() {} } class B { class A {} }] *)

Definition same_name_source : string :=
  "class A { void f() {} } class B { class A {} }".

Definition same_name_root : Node :=
  mkNode "program" 0 46
    [(None,
      mkNode "class_declaration" 0 23
        [(None, Examples.leaf "class" 0 5);
         (Some "name", Examples.leaf "identifier" 6 7);
         (Some "body",
          mkNode "class_body" 8 23
            [(None, Examples.leaf "{" 8 9); (None, Examples.simple_f);
             (None, Examples.leaf "}" 22 23)])]);
     (None,
      mkNode "class_declaration" 24 46
        [(None, Examples.leaf "class" 24 29);
         (Some "name", Examples.leaf "identifier" 30 31);
         (Some "body",
          mkNode "class_body" 32 46
            [(None, Examples.leaf "{" 32 33);
             (None,
              mkNode "class_declaration" 34 44
                [(None, Examples.leaf "class" 34 39);
                 (Some "name", Examples.leaf "identifier" 40 41);
                 (Some "body",
                  mkNode "class_body" 42 44
                    [(None, Examples.leaf "{" 42 43);
                     (None, Examples.leaf "}" 43 44)])]);
             (None, Examples.leaf "}" 45 46)])])].

(** ** [a.f(); b.g();] inside a method: two calls in one file *)

Definition two_calls_source : string :=
  "class A { void m() { a.f(); b.g(); } }".

Definition two_calls_captures : Captures :=
  [(mkNode "method_invocation" 21 26 [], "call");
   (Examples.leaf "identifier" 21 22, "object");
   (Examples.leaf "identifier" 23 24, "method");
   (mkNode "method_invocation" 28 33 [], "call");
   (Examples.leaf "identifier" 28 29, "object");
   (Examples.leaf "identifier" 30 31, "method")].

(** a state that holds the class and the method around the two calls *)
Definition two_calls_state : State :=
  {| entities :=
       {| classes := [{| c_name := "A"; c_file := "proj/T.java";
                         c_start_byte := 0; c_end_byte := 38 |}];
          methods := [{| m_name := "m"; m_class := "A"; m_file := "proj/T.java";
                         m_start_byte := 10; m_end_byte := 36 |}];
          dependencies := [] |};
     graph_log := [] |}.

(** the last capture with a tag *)
Definition last_tagged (tag : string) (captures : Captures)
  : option (Node * string) :=
  match rev (filter (tagged tag) captures) with
  | [] => None
  | cap :: _ => Some cap
  end.

(* ================================================================== *)
(** * Properties *)
(* ================================================================== *)


(** ** Reasoning about scanner programs *)

Section Preservation.
Context {S : Type} (R : S -> S -> Prop).

Lemma preserves_ret {A} (a : A) : Reflexive R -> preserves R (ret a).
Proof. intros HR s; apply HR. Qed.

Lemma preserves_lift {A} (r : result A) : Reflexive R -> preserves R (lift r).
Proof. intros HR s; apply HR. Qed.

Lemma preserves_get : Reflexive R -> preserves R get.
Proof. intros HR s; apply HR. Qed.

Lemma preserves_modify (f : S -> S) :
  (forall s, R s (f s)) -> preserves R (modify f).
Proof. intros H s; apply H. Qed.

Lemma preserves_bind {A B} (m : M S A) (k : A -> M S B) :
  Transitive R -> preserves R m -> (forall a, preserves R (k a)) ->
  preserves R (bind m k).
Proof.
  intros HT Hm Hk s. unfold bind.
  specialize (Hm s). destruct (m s) as [s' [e | a]]; simpl in *.
  - exact Hm.
  - eapply HT; [exact Hm | apply Hk].
Qed.

Lemma preserves_for_each {A} (xs : list A) (body : A -> M S unit) :
  PreOrder R -> (forall x, In x xs -> preserves R (body x)) ->
  preserves R (for_each xs body).
Proof.
  intros HP. induction xs as [| x r IH]; intros Hb; simpl.
  - apply preserves_ret, HP.
  - apply preserves_bind; [apply HP | apply Hb; now left |].
    intros _. apply IH. intros y Hy. apply Hb. now right.
Qed.
End Preservation.

#[global] Instance extends_preorder {X} (proj : State -> list X) (Q : X -> Prop) :
  PreOrder (extends proj Q).
Proof.
  split.
  - intros s. exists []. now rewrite app_nil_r.
  - intros a b c [n1 [E1 F1]] [n2 [E2 F2]]. exists (n1 ++ n2). split.
    + now rewrite E2, E1, app_assoc.
    + apply Forall_app; auto.
Qed.

Lemma extends_weaken {X} (proj : State -> list X) (Q Q' : X -> Prop) s s' :
  (forall x, Q x -> Q' x) -> extends proj Q s s' -> extends proj Q' s s'.
Proof.
  intros H [new [E F]]. exists new. split; [exact E |].
  eapply Forall_impl; eauto.
Qed.

Lemma extends_same {X} (proj : State -> list X) (Q : X -> Prop) s s' :
  proj s' = proj s -> extends proj Q s s'.
Proof. intros E. exists []. now rewrite app_nil_r. Qed.

Lemma extends_one {X} (proj : State -> list X) (Q : X -> Prop) s s' x :
  proj s' = proj s ++ [x] -> Q x -> extends proj Q s s'.
Proof. intros E H. exists [x]. split; [exact E | now constructor]. Qed.

(** splits a goal [preserves R program] along the program's structure *)
Ltac preserving :=
  repeat lazymatch goal with
  | |- preserves _ (ret _) => apply preserves_ret; typeclasses eauto
  | |- preserves _ (lift _) => apply preserves_lift; typeclasses eauto
  | |- preserves _ get => apply preserves_get; typeclasses eauto
  | |- preserves _ (bind _ _) =>
    apply preserves_bind; [typeclasses eauto | | intros ?]
  | |- preserves _ (for_each _ _) =>
    apply preserves_for_each; [typeclasses eauto | intros ? ?]
  | |- preserves _ (match ?x with _ => _ end) => destruct x
  | |- _ => progress cbv zeta
  end.

(** ** C1: the method-source lookup *)

Lemma find_method_source_never_finds P captures source_code source_code_bytes method_name :
  find_method_source P captures source_code source_code_bytes method_name = ok None \/
  find_method_source P captures source_code source_code_bytes method_name
    = raise AttributeError.
Proof.
  induction captures as [| [node tag] rest IH]; simpl.
  - now left.
  - destruct (String.eqb tag "method_name"); [now right | exact IH].
Qed.

(** Whatever the file and the name, the lookup answers nothing: the first
    capture of a method name is read from the decoded source, which cannot
    be decoded again, and the handler turns the exception into [None]. *)
Lemma get_method_source_never_answers P method_name file_path :
  get_method_source P method_name file_path = None.
Proof.
  unfold get_method_source, get_method_source_body.
  destruct (supported_extensions (suffix file_path)); [| reflexivity].
  destruct (_parse_file P file_path l); simpl; [reflexivity |].
  destruct (read_file P file_path); simpl; [reflexivity |].
  destruct (decode b); simpl; [reflexivity |].
  destruct (query P l method_declaration_pattern n); simpl; [reflexivity |].
  destruct (find_method_source_never_finds P c s b method_name) as [E | E];
    now rewrite E.
Qed.

(** C1 (the code departs from the claim). In the Java file
    [class A { void f() {} }] the extension is supported, the query
    captures the name [f] of a method declaration spanning bytes [10, 21),
    whose source slice is [void f() {}]; yet [get_method_source] asked for
    [f] returns nothing. *)
Theorem C1_get_method_source_returns_nothing_for_declared_method :
  supported_extensions (suffix "proj/A.java") = Some JAVA_LANGUAGE /\
  query Examples.simple_project JAVA_LANGUAGE method_declaration_pattern
        Examples.simple_root
    = ok [(Examples.simple_f, "method"); (Examples.simple_f_name, "method_name")] /\
  _get_node_text (Some Examples.simple_f_name)
                 (Bytes (list_byte_of_string Examples.simple_source)) = ok "f" /\
  parent Examples.simple_project Examples.simple_f_name = Some Examples.simple_f /\
  _get_node_text (Some Examples.simple_f)
                 (Bytes (list_byte_of_string Examples.simple_source))
    = ok "void f() {}" /\
  get_method_source Examples.simple_project "f" "proj/A.java" = None.
Proof. repeat split; vm_compute; reflexivity. Qed.

(** ** C6: calls outside any method or class *)

Lemma find_enclosing_none {E} `{Entity E} (b : nat) (es : list E) file_path :
  enclosed_by_some b es file_path = false ->
  _find_enclosing_entity b es file_path = None.
Proof.
  unfold enclosed_by_some, _find_enclosing_entity.
  induction es as [| e r IH]; simpl; [reflexivity |].
  intros Hex. apply orb_false_iff in Hex. destruct Hex as [He Hr].
  destruct (String.eqb (file e) file_path); simpl in *.
  - rewrite He. now apply IH.
  - now apply IH.
Qed.

(** C6. A capture tagged [call] whose start offset no method of the file
    encloses, or no class of the file encloses, leaves the state as it
    was: its iteration of dependency extraction appends no edge, whatever
    the other captures, the language and the source. *)
Theorem C6_call_outside_method_or_class_yields_no_edge
        (captures : Captures) (lang : string) (source_code : data)
        (file_path : string) (node : Node) (s : State) :
  enclosed_by_some (start_byte node) (methods_of s) file_path = false \/
  enclosed_by_some (start_byte node) (classes_of s) file_path = false ->
  fst (process_capture captures lang source_code file_path (node, "call") s) = s.
Proof.
  intros Hout.
  assert (Hcall : fst (process_call node captures source_code file_path s) = s).
  { unfold process_call, bind, lift, get.
    destruct (call_companions captures source_code None None) as [e | names];
      [reflexivity |].
    destruct (both_truthy (fst names) (snd names)) as [[mn on] |]; [| reflexivity].
    unfold ok. cbv beta iota zeta.
    destruct Hout as [Hm | Hc].
    - apply find_enclosing_none in Hm. unfold methods_of in Hm. rewrite Hm.
      now destruct (_find_enclosing_entity _ (classes (entities s)) _).
    - apply find_enclosing_none in Hc. unfold classes_of in Hc. now rewrite Hc. }
  unfold process_capture.
  destruct (String.eqb lang "java"); simpl; [exact Hcall |].
  destruct (String.eqb lang "typescript"); simpl; [exact Hcall | reflexivity].
Qed.

Lemma C6_witness :
  fst (process_capture Examples.pair_calls "java"
         (Bytes (list_byte_of_string Examples.pair_source)) "proj/AB.java"
         (Examples.leaf "method_invocation" 31 32, "call")
         (fst (scan_project Examples.pair_project "proj" initial_state)))
  = fst (scan_project Examples.pair_project "proj" initial_state).
Proof.
  apply C6_call_outside_method_or_class_yields_no_edge.
  left. vm_compute. reflexivity.
Defined.

(** ** What the primitive steps do to each part of the state *)

Lemma append_dependency_deps Q d :
  Q d -> preserves (extends deps_of Q) (append_dependency d).
Proof. intros H s. now apply extends_one with (x := d). Qed.

Lemma append_dependency_keeps {X} (proj : State -> list X) Q d :
  (forall s, proj (fst (append_dependency d s)) = proj s) ->
  preserves (extends proj Q) (append_dependency d).
Proof. intros H s. now apply extends_same. Qed.

Lemma append_class_keeps {X} (proj : State -> list X) Q c :
  (forall s, proj (fst (append_class c s)) = proj s) ->
  preserves (extends proj Q) (append_class c).
Proof. intros H s. now apply extends_same. Qed.

Lemma append_method_keeps {X} (proj : State -> list X) Q m :
  (forall s, proj (fst (append_method m s)) = proj s) ->
  preserves (extends proj Q) (append_method m).
Proof. intros H s. now apply extends_same. Qed.

Lemma graph_keeps {X} (proj : State -> list X) Q c :
  (forall s, proj (fst (graph c s)) = proj s) ->
  preserves (extends proj Q) (graph c).
Proof. intros H s. now apply extends_same. Qed.

Lemma graph_log_call (Q : GraphCall -> Prop) c :
  Q c -> preserves (extends graph_log Q) (graph c).
Proof. intros H s. now apply extends_one with (x := c). Qed.

(** ** The records dependency extraction appends *)

Lemma process_call_emits node captures source_code file_path lang :
  lang = "java" \/ lang = "typescript" ->
  preserves (extends deps_of (emitted_by lang file_path))
            (process_call node captures source_code file_path).
Proof.
  intros Hl. unfold process_call. preserving.
  apply append_dependency_deps. now constructor.
Qed.

Lemma process_capture_emits captures lang source_code file_path cap :
  preserves (extends deps_of (emitted_by lang file_path))
            (process_capture captures lang source_code file_path cap).
Proof.
  unfold process_capture. destruct cap as [node tag].
  destruct (String.eqb lang "java") eqn:EJ.
  - apply String.eqb_eq in EJ.
    destruct (String.eqb tag "call"); [apply process_call_emits; now left |].
    destruct (String.eqb tag "import_path").
    { preserving. apply append_dependency_deps. now constructor. }
    destruct (String.eqb tag "class_name").
    { preserving. apply append_dependency_deps. now constructor. }
    preserving.
  - destruct (String.eqb lang "typescript") eqn:ET; [| preserving].
    apply String.eqb_eq in ET.
    destruct (String.eqb tag "call"); [apply process_call_emits; now right |].
    destruct (startswith "import" tag).
    { preserving. apply append_dependency_deps. now constructor. }
    destruct (String.eqb tag "parent"); preserving.
    apply append_dependency_deps. now constructor.
Qed.

Lemma _process_dependency_emits captures lang source_code file_path :
  preserves (extends deps_of (emitted_by lang file_path))
            (_process_dependency captures lang source_code file_path).
Proof.
  unfold _process_dependency. apply preserves_for_each; [typeclasses eauto |].
  intros cap _. apply process_capture_emits.
Qed.

(** dependency extraction makes no call on the persister *)
Lemma _process_dependency_silent captures lang source_code file_path Q :
  preserves (extends graph_log Q)
            (_process_dependency captures lang source_code file_path).
Proof.
  unfold _process_dependency. apply preserves_for_each; [typeclasses eauto |].
  intros [node tag] _. unfold process_capture, process_call.
  preserving; now apply append_dependency_keeps.
Qed.

(** ** The traversal, unfolded *)

Lemma for_each_app {S A} (xs ys : list A) (body : A -> M S unit) s :
  for_each (xs ++ ys) body s = bind (for_each xs body) (fun _ => for_each ys body) s.
Proof.
  revert s. induction xs as [| x r IH]; intros s; simpl.
  - reflexivity.
  - unfold bind. destruct (body x s) as [s' [e | a]]; [reflexivity |].
    rewrite IH. reflexivity.
Qed.

Lemma _extract_entities_unfold t b e cs source_code file_path s :
  _extract_entities (mkNode t b e cs) source_code file_path s =
  bind (visit (mkNode t b e cs) source_code file_path)
       (fun _ => for_each (map snd cs)
                   (fun child => _extract_entities child source_code file_path)) s.
Proof.
  simpl. unfold bind.
  destruct (visit (mkNode t b e cs) source_code file_path s) as [s' [x | a]];
    [reflexivity |].
  clear s. revert s'. induction cs as [| [f c] r IH]; intros s; simpl.
  - reflexivity.
  - unfold bind.
    destruct (_extract_entities c source_code file_path s) as [s' [x | u]];
      [reflexivity | apply IH].
Qed.

Lemma preorder_unfold t b e cs :
  preorder (mkNode t b e cs) =
  mkNode t b e cs :: flat_map (fun fc => preorder (snd fc)) cs.
Proof.
  simpl. f_equal. induction cs as [| [f c] r IH]; simpl; [reflexivity |].
  now rewrite IH.
Qed.

(** Entity extraction meets the nodes in pre-order and does, at each, its
    own part [visit]; an exception stops both at the same node. *)
Lemma _extract_entities_preorder node source_code file_path :
  forall s,
    _extract_entities node source_code file_path s =
    for_each (preorder node) (fun n => visit n source_code file_path) s.
Proof.
  induction node as [t b e cs IH] using Node_nested_ind. intros s.
  rewrite _extract_entities_unfold, preorder_unfold. simpl.
  unfold bind.
  destruct (visit (mkNode t b e cs) source_code file_path s) as [s' [x | a]];
    [reflexivity |].
  clear s. revert s'. induction cs as [| [f c] r IHr]; intros s; simpl.
  - reflexivity.
  - inversion IH as [| ? ? Hc Hr]; subst. simpl in Hc.
    rewrite for_each_app. unfold bind. rewrite Hc.
    destruct (for_each (preorder c) _ s) as [s' [x | u]]; [reflexivity |].
    now apply IHr.
Qed.

(** entity extraction appends no dependency and calls only the upserts *)
Lemma visit_keeps_deps node source_code file_path Q :
  preserves (extends deps_of Q) (visit node source_code file_path).
Proof.
  unfold visit.
  destruct (String.eqb (type node) "class_declaration").
  { preserving; [now apply append_class_keeps | now apply graph_keeps]. }
  destruct (String.eqb (type node) "method_declaration"); preserving;
    [now apply append_method_keeps | now apply graph_keeps].
Qed.

Lemma visit_only_upserts node source_code file_path :
  preserves (extends graph_log (fun c => is_upsert c = true))
            (visit node source_code file_path).
Proof.
  unfold visit.
  destruct (String.eqb (type node) "class_declaration").
  { preserving; [now apply append_class_keeps | now apply graph_log_call]. }
  destruct (String.eqb (type node) "method_declaration"); preserving;
    [now apply append_method_keeps | now apply graph_log_call].
Qed.

Lemma _extract_entities_preserves (R : State -> State -> Prop)
      node source_code file_path :
  PreOrder R ->
  (forall n, preserves R (visit n source_code file_path)) ->
  preserves R (_extract_entities node source_code file_path).
Proof.
  intros HR Hv s. rewrite _extract_entities_preorder.
  apply preserves_for_each; [exact HR | intros n _; apply Hv].
Qed.

Lemma preserves_weaken {S A} (R R' : S -> S -> Prop) (m : M S A) :
  (forall s s', R s s' -> R' s s') -> preserves R m -> preserves R' m.
Proof. intros H Hm s. apply H, Hm. Qed.

(** ** The scan of a file and of a project *)

Lemma scan_file_emits P file_path :
  preserves (extends deps_of emitted) (scan_file P file_path).
Proof.
  unfold scan_file. preserving.
  - apply _extract_entities_preserves; [typeclasses eauto |].
    intros n. apply visit_keeps_deps.
  - eapply preserves_weaken; [| apply _process_dependency_emits].
    intros s s'. apply extends_weaken. intros d Hd.
    exists file_path. exact Hd.
Qed.

Lemma scan_file_only_upserts P file_path :
  preserves (extends graph_log (fun c => is_upsert c = true))
            (scan_file P file_path).
Proof.
  unfold scan_file. preserving.
  - apply _extract_entities_preserves; [typeclasses eauto |].
    intros n. apply visit_only_upserts.
  - apply _process_dependency_silent.
Qed.

Lemma create_all_dependencies ds s :
  for_each ds (fun dependency => graph (create_dependency dependency)) s =
  ({| entities := entities s;
      graph_log := graph_log s ++ map create_dependency ds |}, ok tt).
Proof.
  revert s. induction ds as [| d r IH]; intros s; simpl.
  - rewrite app_nil_r. now destruct s.
  - unfold bind. simpl. rewrite IH. simpl. now rewrite <- app_assoc.
Qed.

Lemma scan_project_phases P project_path s :
  scan_project P project_path s =
  match first_phase P project_path s with
  | (s1, inl e) => (s1, inl e)
  | (s1, inr _) =>
    ({| entities := entities s1;
        graph_log := graph_log s1 ++ map create_dependency (deps_of s1) |},
     ok (entities s1))
  end.
Proof.
  unfold scan_project, first_phase, bind at 1. simpl. fold (fresh s).
  unfold bind at 1.
  destruct (for_each (_get_files P project_path) (scan_file P) (fresh s))
    as [s1 [e | u]]; [reflexivity |].
  unfold bind, get. simpl. rewrite create_all_dependencies. reflexivity.
Qed.

(** ** C8: the two phases of a project scan *)

(** C8. The persister calls of a run of [scan_project] are, in order: the
    calls of the loop over all files, every one of them a class or method
    upsert; then, only if that loop ended without raising, one edge
    creation per recorded dependency. No edge creation comes before an
    entity upsert. *)
Theorem C8_entity_upserts_precede_edge_creations
        (P : Provider) (project_path : string) (s : State) :
  exists upserts edges,
    graph_log (fst (first_phase P project_path s)) = graph_log s ++ upserts /\
    graph_log (fst (scan_project P project_path s))
      = graph_log s ++ upserts ++ edges /\
    forallb is_upsert upserts = true /\
    forallb is_edge_creation edges = true /\
    edges = match snd (first_phase P project_path s) with
            | inl _ => []
            | inr _ => map create_dependency
                           (deps_of (fst (first_phase P project_path s)))
            end.
Proof.
  assert (H1 : extends graph_log (fun c => is_upsert c = true)
                       (fresh s) (fst (first_phase P project_path s))).
  { unfold first_phase.
    apply (preserves_for_each _ _ _ (extends_preorder _ _)).
    intros f _. apply scan_file_only_upserts. }
  destruct H1 as [upserts [E F]]. simpl in E.
  exists upserts. rewrite scan_project_phases.
  destruct (first_phase P project_path s) as [s1 [e | u]]; simpl in *.
  - exists []. rewrite app_nil_r. repeat split; auto.
    apply forallb_forall. rewrite Forall_forall in F. auto.
  - exists (map create_dependency (deps_of s1)). rewrite E, <- app_assoc.
    repeat split; auto.
    + apply forallb_forall. rewrite Forall_forall in F. auto.
    + apply forallb_forall. intros c Hc. apply in_map_iff in Hc.
      destruct Hc as [d [<- _]]. reflexivity.
Qed.

(** ** C10: the callee of a recorded call *)

Lemma split_dot1_dotted object_name method_name :
  exists a b, split_dot1 (object_name ++ "." ++ method_name)%string = [a; b].
Proof.
  induction object_name as [| c r IH]; simpl in *.
  - eexists. eexists. reflexivity.
  - destruct (Ascii.eqb c dot).
    + eexists. eexists. reflexivity.
    + destruct IH as [a [b E]]. rewrite E. eexists. eexists. reflexivity.
Qed.

Lemma scan_project_dependencies_emitted P project_path s :
  Forall emitted (deps_of (fst (scan_project P project_path s))).
Proof.
  assert (H1 : extends deps_of emitted
                       (fresh s) (fst (first_phase P project_path s))).
  { unfold first_phase.
    apply (preserves_for_each _ _ _ (extends_preorder _ _)).
    intros f _. apply scan_file_emits. }
  destruct H1 as [new [E F]]. simpl in E.
  rewrite scan_project_phases.
  destruct (first_phase P project_path s) as [s1 [e | u]]; simpl in *.
  - now rewrite E.
  - unfold deps_of in *. simpl. now rewrite E.
Qed.

(** C10. Every dependency of type [method_call] that a run of
    [scan_project] records has a callee that the persister's
    [split('.', 1)] unpacks into two parts, so the transaction takes the
    normal path and logs no invalid-callee warning, on any graph. *)
Theorem C10_recorded_callee_always_splits
        (P : Provider) (project_path : string) (s : State) (d : dict) :
  In d (deps_of (fst (scan_project P project_path s))) ->
  is_type "method_call" d = true ->
  (exists object_part method_part,
      Neo4j.split_callee d = ok (object_part, method_part)) /\
  (forall g, exists g',
      Neo4j._create_dependency_transaction d g
      = ok (g', [Neo4j.info "Created method call"])).
Proof.
  intros Hin Hty.
  pose proof (scan_project_dependencies_emitted P project_path s) as Hall.
  rewrite Forall_forall in Hall. destruct (Hall d Hin) as [fp He].
  destruct He; try discriminate Hty.
  destruct (split_dot1_dotted object_name method_name) as [a [b E]].
  assert (Hs : Neo4j.split_callee
                 [("type", VStr "method_call"); ("caller_class", VStr c);
                  ("caller_method", VStr m);
                  ("callee", VStr (object_name ++ "." ++ method_name)%string);
                  ("file", VStr fp)] = ok (a, b)).
  { unfold Neo4j.split_callee. cbn -[split_dot1 append]. rewrite E. reflexivity. }
  split.
  - exists a, b. exact Hs.
  - intros g. unfold Neo4j._create_dependency_transaction. rewrite Hs.
    cbn -[Neo4j.link_each Neo4j.match_nodes append]. eexists. reflexivity.
Qed.

Lemma C10_witness :
  (exists object_part method_part,
      Neo4j.split_callee
        [("type", VStr "method_call"); ("caller_class", VStr "A");
         ("caller_method", VStr "f"); ("callee", VStr "x.g");
         ("file", VStr "proj/N.java")] = ok (object_part, method_part)) /\
  (forall g, exists g',
      Neo4j._create_dependency_transaction
        [("type", VStr "method_call"); ("caller_class", VStr "A");
         ("caller_method", VStr "f"); ("callee", VStr "x.g");
         ("file", VStr "proj/N.java")] g
      = ok (g', [Neo4j.info "Created method call"])).
Proof.
  apply (C10_recorded_callee_always_splits
           Examples.nested_project "proj" initial_state).
  - vm_compute. left. reflexivity.
  - reflexivity.
Defined.

(** ** The two-class scenario, run *)

(** The file [class A { void f() { b.g(); } } class B { void g() {} }]
    yields the classes [A] and [B], the methods [f] of [A] and [g] of [B],
    and the one call edge from [A.f] to [b.g]; the persister is called for
    the four entities and then for the edge. *)
Lemma two_class_scenario :
  let s := fst (scan_project Examples.pair_project "proj" initial_state) in
  map c_name (classes_of s) = ["A"; "B"] /\
  map (fun m => (m_name m, m_class m)) (methods_of s) = [("f", "A"); ("g", "B")] /\
  deps_of s = [call_record "A" "f" "b.g" "proj/AB.java"] /\
  graph_log s =
    [create_class_node "A" "proj/AB.java";
     create_method_node "f" "A" "proj/AB.java";
     create_class_node "B" "proj/AB.java";
     create_method_node "g" "B" "proj/AB.java";
     create_dependency (call_record "A" "f" "b.g" "proj/AB.java")].
Proof. repeat split; vm_compute; reflexivity. Qed.

(** ** C4: import edges *)

(** C4 (the code departs from the claim). In a TypeScript file with the
    two statements [import A from './a'; import B from './b';] the second
    statement's path text is ['./b'], [./b] once stripped; the extraction
    records two import edges that both carry [./a], the first module path
    of the whole capture list. And for [import { x } from './c';], which
    has no default import, no capture's tag starts with [import] and no
    edge is recorded. *)
Theorem C4_typescript_import_edges_miss_their_statement :
  _get_node_text (Some Examples.imports_b)
                 (Bytes (list_byte_of_string Examples.imports_source))
    = ok "'./b'" /\
  strip is_quote "'./b'" = "./b" /\
  deps_of (fst (_process_dependency Examples.imports_captures "typescript"
                  (Bytes (list_byte_of_string Examples.imports_source))
                  "m.ts" initial_state))
    = [[("type", VStr "import"); ("file", VStr "m.ts"); ("import_path", VStr "./a")];
       [("type", VStr "import"); ("file", VStr "m.ts"); ("import_path", VStr "./a")]] /\
  deps_of (fst (_process_dependency Examples.named_import_captures "typescript"
                  (Bytes (list_byte_of_string Examples.named_import_source))
                  "n.ts" initial_state))
    = [].
Proof. repeat split; vm_compute; reflexivity. Qed.

(** the Java branch does record one edge per captured path, verbatim *)
Lemma java_import_capture_records_its_path captures source_code file_path node s p :
  _get_node_text (Some node) source_code = ok p ->
  deps_of (fst (process_capture captures "java" source_code file_path
                                (node, "import_path") s))
  = deps_of s ++ [[("type", VStr "import"); ("file", VStr file_path);
                   ("import_path", VStr p)]].
Proof.
  intros H. unfold process_capture. cbn -[_get_node_text].
  unfold bind, lift. rewrite H. reflexivity.
Qed.

(** ** C2: the class a method is given *)

Lemma visit_method_declaration node source_code file_path s method_name :
  type node = "method_declaration" ->
  _get_node_text (child_by_field_name node "name") source_code = ok method_name ->
  visit node source_code file_path s =
  match find (encloses (start_byte node)) (classes_of s) with
  | Some c =>
    ({| entities :=
          {| classes := classes_of s;
             methods := methods_of s
                        ++ [method_entity_of node method_name (c_name c) file_path];
             dependencies := deps_of s |};
        graph_log := graph_log s
                     ++ [create_method_node method_name (c_name c) file_path] |},
     ok tt)
  | None => (s, ok tt)
  end.
Proof.
  intros Hty Hname. unfold visit. rewrite Hty. cbn -[_get_node_text].
  unfold bind, lift, get. rewrite Hname. unfold ok.
  unfold classes_of. destruct (find _ (classes (entities s))); reflexivity.
Qed.

(** C2 (a counterexample to the claim as stated). In
    [class A { class B { void f() { x.g(); } } }] the classes emitted
    before [f] is met are [A] and [B]; the one of smallest span that
    contains the start of [f] is [B], but the method entity records [A]. *)
Lemma C2_nested_method_is_given_the_outer_class :
  let s := fst (_extract_entities Examples.nested_root
                  (Bytes (list_byte_of_string Examples.nested_source))
                  "proj/N.java" initial_state) in
  map c_name (classes_of s) = ["A"; "B"] /\
  map (fun m => (m_name m, m_class m, m_start_byte m)) (methods_of s)
    = [("f", "A", 20)] /\
  option_map c_name
    (spec_smallest_enclosing_class 20 (classes_of s) "proj/N.java") = Some "B".
Proof. repeat split; vm_compute; reflexivity. Qed.

(** The search for a method's class runs over the classes of every file
    scanned so far: after a file whose class [Z] spans bytes [0, 100), the
    method [f] of [class A { void f() {} }] in another file is given [Z]. *)
Lemma method_is_given_a_class_of_an_earlier_file :
  let s0 := {| entities :=
                 {| classes := [{| c_name := "Z"; c_file := "proj/Z.java";
                                   c_start_byte := 0; c_end_byte := 100 |}];
                    methods := []; dependencies := [] |};
               graph_log := [] |} in
  map (fun m => (m_name m, m_class m, m_file m))
      (methods_of (fst (_extract_entities Examples.simple_root
                          (Bytes (list_byte_of_string Examples.simple_source))
                          "proj/A.java" s0)))
  = [("f", "Z", "proj/A.java")].
Proof. vm_compute. reflexivity. Qed.

(** C2 (amended). When extraction meets a method declaration whose name
    can be read, and the classes emitted so far are all of the file being
    scanned, the method is given the FIRST class emitted so far (classes
    are emitted in pre-order, so the outermost) whose span satisfies
    start <= node.start < end; if no class emitted so far contains the
    method's start, no method entity is emitted. The nodes are met in
    pre-order, and the traversal goes on from the state so reached. *)
Theorem C2_method_is_given_first_enclosing_class
        (root : Node) (source_code : data) (file_path : string)
        (s0 s : State) (before after : list Node) (node : Node)
        (method_name : string) :
  preorder root = before ++ node :: after ->
  for_each before (fun n => visit n source_code file_path) s0 = (s, ok tt) ->
  type node = "method_declaration" ->
  _get_node_text (child_by_field_name node "name") source_code = ok method_name ->
  forallb (fun c => String.eqb (c_file c) file_path) (classes_of s) = true ->
  _extract_entities root source_code file_path s0
    = for_each after (fun n => visit n source_code file_path)
               (fst (visit node source_code file_path s)) /\
  classes_of (fst (visit node source_code file_path s)) = classes_of s /\
  match find (encloses (start_byte node)) (classes_of s) with
  | Some c =>
    c_file c = file_path /\
    methods_of (fst (visit node source_code file_path s))
      = methods_of s ++ [method_entity_of node method_name (c_name c) file_path]
  | None =>
    methods_of (fst (visit node source_code file_path s)) = methods_of s
  end.
Proof.
  intros Hpre Hbefore Hty Hname Hfile.
  pose proof (visit_method_declaration node source_code file_path s method_name
                                       Hty Hname) as Hv.
  split; [| split].
  - rewrite _extract_entities_preorder, Hpre, for_each_app.
    unfold bind at 1. rewrite Hbefore. simpl. unfold bind.
    rewrite Hv. now destruct (find _ (classes_of s)).
  - rewrite Hv. now destruct (find _ (classes_of s)).
  - rewrite Hv. destruct (find _ (classes_of s)) as [c |] eqn:Ef; [| reflexivity].
    split; [| reflexivity].
    apply find_some in Ef. destruct Ef as [Hin _].
    rewrite forallb_forall in Hfile. apply String.eqb_eq. now apply Hfile.
Qed.

Lemma C2_witness :
  let source := Bytes (list_byte_of_string Examples.simple_source) in
  let before := firstn 6 (preorder Examples.simple_root) in
  let after := skipn 7 (preorder Examples.simple_root) in
  let s := fst (for_each before (fun n => visit n source "proj/A.java")
                         initial_state) in
  _extract_entities Examples.simple_root source "proj/A.java" initial_state
    = for_each after (fun n => visit n source "proj/A.java")
               (fst (visit Examples.simple_f source "proj/A.java" s)) /\
  classes_of (fst (visit Examples.simple_f source "proj/A.java" s)) = classes_of s /\
  match find (encloses (start_byte Examples.simple_f)) (classes_of s) with
  | Some c =>
    c_file c = "proj/A.java" /\
    methods_of (fst (visit Examples.simple_f source "proj/A.java" s))
      = methods_of s ++ [method_entity_of Examples.simple_f "f" (c_name c) "proj/A.java"]
  | None =>
    methods_of (fst (visit Examples.simple_f source "proj/A.java" s)) = methods_of s
  end.
Proof.
  cbv zeta.
  apply (C2_method_is_given_first_enclosing_class
           Examples.simple_root _ "proj/A.java" initial_state _
           (firstn 6 (preorder Examples.simple_root))
           (skipn 7 (preorder Examples.simple_root))
           Examples.simple_f "f");
    vm_compute; reflexivity.
Defined.

(** ** C3: the scope a call is attributed to *)

Lemma call_companions_found source_code captures :
  forallb (readable source_code) captures = true ->
  forall method_name object_name,
    usable method_name -> usable object_name ->
    exists method_name' object_name',
      call_companions captures source_code method_name object_name
        = ok (method_name', object_name') /\
      usable method_name' /\ usable object_name' /\
      (has_tag "method" captures = true \/ method_name <> None ->
       method_name' <> None) /\
      (has_tag "object" captures = true \/ object_name <> None ->
       object_name' <> None).
Proof.
  induction captures as [| [n t] rest IH]; intros Hr a b Ha Hb.
  - exists a, b. simpl. repeat split; auto; intros [H | H]; auto; discriminate.
  - simpl in Hr. apply andb_true_iff in Hr. destruct Hr as [Hn Hrest].
    unfold readable in Hn. simpl fst in Hn.
    cbn [call_companions]. unfold has_tag. cbn [existsb snd].
    destruct (_get_node_text (Some n) source_code) as [e | txt] eqn:Et;
      [discriminate |].
    destruct (String.eqb t "method") eqn:Em.
    + cbn [rbind]. destruct (IH Hrest (Some txt) b Hn Hb)
        as [a' [b' [E [Ua [Ub [Fa Fb]]]]]].
      exists a', b'. repeat split; auto.
      * intros _. apply Fa. right. discriminate.
      * apply String.eqb_eq in Em. subst t. cbn [String.eqb]. exact Fb.
    + destruct (String.eqb t "object") eqn:Eo.
      * cbn [rbind]. destruct (IH Hrest a (Some txt) Ha Hn)
          as [a' [b' [E [Ua [Ub [Fa Fb]]]]]].
        exists a', b'. repeat split; auto.
        intros _. apply Fb. right. discriminate.
      * destruct (IH Hrest a b Ha Hb) as [a' [b' [E [Ua [Ub [Fa Fb]]]]]].
        exists a', b'. repeat split; auto.
Qed.

(** C3 (a counterexample to the claim as stated). In
    [class A { class B { void f() { x.g(); } } }] the call [x.g()] is
    written inside method [f], which is written inside class [B]; class
    [B] is extracted and its span contains the call; the edge recorded for
    the call has [caller_class = A]. *)
Lemma C3_call_in_nested_class_is_attributed_to_the_outer_class :
  let s := fst (scan_project Examples.nested_project "proj" initial_state) in
  In Examples.nested_call (preorder Examples.nested_f) /\
  In Examples.nested_f (preorder Examples.nested_B) /\
  existsb (fun c => String.eqb (c_name c) "B"
                    && String.eqb (c_file c) "proj/N.java"
                    && encloses (start_byte Examples.nested_call) c)
          (classes_of s) = true /\
  deps_of s = [call_record "A" "f" "x.g" "proj/N.java"].
Proof.
  cbv zeta. split; [| split; [| split]].
  - vm_compute. tauto.
  - vm_compute. tauto.
  - vm_compute. reflexivity.
  - vm_compute. reflexivity.
Qed.

(** C3 (amended). For a capture tagged [call], in a capture list whose
    texts can all be read and which holds an [object] and a [method]
    capture (as every match of the call pattern does): if [c] is the FIRST
    extracted class of the file whose span contains the call's start, and
    [m] the FIRST such extracted method (entities are listed in pre-order,
    so the outermost ones), its iteration records exactly one edge, with
    [caller_class = c] and [caller_method = m], whatever other captures
    the list holds. Where a single class and a single method of the file
    contain the call, these are the class and method it is written in. *)
Theorem C3_call_is_attributed_to_first_enclosing_class_and_method
        (captures : Captures) (lang : string) (source_code : data)
        (file_path : string) (node : Node) (s : State)
        (c : ClassEntity) (m : MethodEntity) :
  lang = "java" \/ lang = "typescript" ->
  forallb (readable source_code) captures = true ->
  has_tag "object" captures = true ->
  has_tag "method" captures = true ->
  _find_enclosing_entity (start_byte node) (classes_of s) file_path = Some c ->
  _find_enclosing_entity (start_byte node) (methods_of s) file_path = Some m ->
  exists callee,
    deps_of (fst (process_capture captures lang source_code file_path
                                  (node, "call") s))
    = deps_of s ++ [call_record (c_name c) (m_name m) callee file_path].
Proof.
  intros Hl Hr Ho Hm Hc Hmeth.
  destruct (call_companions_found source_code captures Hr None None I I)
    as [a [b [E [Ua [Ub [Fa Fb]]]]]].
  destruct a as [mn |]; [| exfalso; apply Fa; auto].
  destruct b as [on |]; [| exfalso; apply Fb; auto].
  simpl in Ua, Ub.
  assert (Hcall :
    deps_of (fst (process_call node captures source_code file_path s))
    = deps_of s ++ [call_record (c_name c) (m_name m)
                                (on ++ "." ++ mn)%string file_path]).
  { unfold process_call, bind, lift, get. rewrite E. unfold ok.
    cbn [fst snd both_truthy]. rewrite Ua, Ub. cbn [andb].
    unfold classes_of, methods_of in *. rewrite Hc, Hmeth. reflexivity. }
  exists (on ++ "." ++ mn)%string. unfold process_capture.
  destruct Hl as [-> | ->]; exact Hcall.
Qed.

Lemma C3_witness :
  exists callee,
    deps_of (fst (process_capture Examples.pair_calls "java"
                    (Bytes (list_byte_of_string Examples.pair_source))
                    "proj/AB.java" (Examples.pair_call, "call")
                    (fst (_extract_entities Examples.pair_root
                            (Bytes (list_byte_of_string Examples.pair_source))
                            "proj/AB.java" initial_state))))
    = [] ++ [call_record "A" "f" callee "proj/AB.java"].
Proof.
  apply (C3_call_is_attributed_to_first_enclosing_class_and_method
           Examples.pair_calls "java" _ "proj/AB.java" Examples.pair_call
           (fst (_extract_entities Examples.pair_root
                   (Bytes (list_byte_of_string Examples.pair_source))
                   "proj/AB.java" initial_state))
           {| c_name := "A"; c_file := "proj/AB.java";
              c_start_byte := 0; c_end_byte := 31 |}
           {| m_name := "f"; m_class := "A"; m_file := "proj/AB.java";
              m_start_byte := 10; m_end_byte := 29 |}).
  - left. reflexivity.
  - vm_compute. reflexivity.
  - vm_compute. reflexivity.
  - vm_compute. reflexivity.
  - vm_compute. reflexivity.
  - vm_compute. reflexivity.
Defined.

(** ** C5: a method's span lies in its owner's span *)

Lemma well_nested_unfold t a e cs :
  well_nested (mkNode t a e cs) = (a <=? e) && children_nested e a cs.
Proof.
  simpl. f_equal. generalize a. induction cs as [| [f c] r IH]; intros lo; simpl.
  - reflexivity.
  - now rewrite IH.
Qed.

Lemma well_nested_span n : well_nested n = true -> start_byte n <= end_byte n.
Proof.
  destruct n as [t a e cs]. rewrite well_nested_unfold. simpl.
  intros H. apply andb_true_iff in H. destruct H as [H _].
  now apply Nat.leb_le.
Qed.

Lemma find_app_some {A} (f : A -> bool) l l' x :
  find f l = Some x -> find f (l ++ l') = Some x.
Proof.
  induction l as [| y r IH]; simpl; [discriminate |].
  destruct (f y); auto.
Qed.

Section Nesting.
Variable source_code : data.
Variable file_path : string.

Lemma owner_contains_more cs cs' m :
  owner_contains file_path cs m -> owner_contains file_path (cs ++ cs') m.
Proof.
  intros [Hf [c [Hfind H]]]. split; [exact Hf |].
  exists c. split; [now apply find_app_some | exact H].
Qed.

Lemma grows_within_refl b s : grows_within file_path b s s.
Proof.
  split; exists []; rewrite app_nil_r; auto.
Qed.

Lemma grows_within_trans b1 b2 s s1 s2 :
  b1 <= b2 ->
  grows_within file_path b1 s s1 -> grows_within file_path b2 s1 s2 ->
  grows_within file_path b2 s s2.
Proof.
  intros Hb [[c1 [Ec1 Fc1]] [m1 [Em1 Fm1]]] [[c2 [Ec2 Fc2]] [m2 [Em2 Fm2]]].
  split.
  - exists (c1 ++ c2). split; [now rewrite Ec2, Ec1, app_assoc |].
    apply Forall_app. split; [| exact Fc2].
    eapply Forall_impl; [| exact Fc1]. intros c [Hf He]. split; [exact Hf | lia].
  - exists (m1 ++ m2). split; [now rewrite Em2, Em1, app_assoc |].
    apply Forall_app. split; [| exact Fm2].
    eapply Forall_impl; [| exact Fm1]. intros m Hm. rewrite Ec2.
    now apply owner_contains_more.
Qed.

Lemma visit_grows node s :
  start_byte node <= end_byte node ->
  settled_before file_path (start_byte node) (start_byte node) (end_byte node)
                 (classes_of s) ->
  grows_within file_path (end_byte node) s
               (fst (visit node source_code file_path s)) /\
  settled_before file_path (start_byte node) (start_byte node) (end_byte node)
                 (classes_of (fst (visit node source_code file_path s))).
Proof.
  intros Hspan Hs. unfold visit.
  destruct (String.eqb (type node) "class_declaration").
  { unfold bind, lift.
    destruct (_get_node_text (child_by_field_name node "name") source_code)
      as [x | class_name]; simpl.
    - split; [apply grows_within_refl | exact Hs].
    - split.
      + split.
        * eexists. split; [reflexivity |]. constructor; [| constructor].
          simpl. split; [reflexivity | lia].
        * exists []. split; [now rewrite app_nil_r | constructor].
      + intros c Hin Hf. unfold classes_of in Hin. simpl in Hin.
        apply in_app_or in Hin. destruct Hin as [Hin | [<- | []]].
        * now apply Hs.
        * right. simpl. lia. }
  destruct (String.eqb (type node) "method_declaration").
  { unfold bind, lift, get.
    destruct (_get_node_text (child_by_field_name node "name") source_code)
      as [x | method_name]; simpl.
    - split; [apply grows_within_refl | exact Hs].
    - destruct (find (encloses (start_byte node)) (classes (entities s)))
        as [c |] eqn:Ef; simpl.
      + split; [| exact Hs]. split.
        * exists []. split; [now rewrite app_nil_r | constructor].
        * eexists. split; [reflexivity |]. constructor; [| constructor].
          split; [reflexivity |]. exists c. simpl.
          split; [exact Ef | split; [reflexivity |]].
          intros Hf. apply find_some in Ef. destruct Ef as [Hin Henc].
          unfold encloses in Henc. simpl in Henc.
          apply andb_true_iff in Henc. destruct Henc as [H1 H2].
          apply Nat.leb_le in H1. apply Nat.ltb_lt in H2.
          destruct (Hs c Hin Hf) as [H | [_ H]]; lia.
      + split; [apply grows_within_refl | exact Hs]. }
  simpl. split; [apply grows_within_refl | exact Hs].
Qed.

Lemma _extract_entities_grows node :
  well_nested node = true ->
  forall s,
    settled_before file_path (start_byte node) (start_byte node) (end_byte node)
                   (classes_of s) ->
    grows_within file_path (end_byte node) s
                 (fst (_extract_entities node source_code file_path s)).
Proof.
  induction node as [t a e cs IH] using Node_nested_ind.
  rewrite well_nested_unfold. intros Hwf s Hs.
  apply andb_true_iff in Hwf. destruct Hwf as [Hae Hcs].
  apply Nat.leb_le in Hae. cbn [start_byte end_byte] in Hs |- *.
  rewrite _extract_entities_unfold. unfold bind.
  destruct (visit_grows (mkNode t a e cs) s Hae Hs) as [G0 S0].
  destruct (visit (mkNode t a e cs) source_code file_path s) as [s1 [x | u]];
    simpl in G0, S0 |- *; [exact G0 |].
  apply (grows_within_trans e e s s1); [lia | exact G0 |].
  clear G0 Hs s.
  assert (Hlo : a <= a) by lia. revert Hlo S0 Hcs.
  generalize a at 2 3 5 as lo. revert s1.
  induction cs as [| [f c] r IHr]; intros s lo Hlo Hs Hcs; simpl.
  - apply grows_within_refl.
  - simpl in Hcs.
    apply andb_true_iff in Hcs. destruct Hcs as [Hcs Hr].
    apply andb_true_iff in Hcs. destruct Hcs as [Hcs Hwc].
    apply andb_true_iff in Hcs. destruct Hcs as [H1 H2].
    apply Nat.leb_le in H1. apply Nat.leb_le in H2.
    pose proof (well_nested_span c Hwc) as Hspan.
    inversion IH as [| ? ? IHc IHrest]; subst. simpl in IHc.
    assert (Gc : grows_within file_path (end_byte c) s
                   (fst (_extract_entities c source_code file_path s))).
    { apply IHc; [exact Hwc |]. intros c0 Hin Hf.
      destruct (Hs c0 Hin Hf) as [H | [Ha Hb]]; [left | right]; lia. }
    unfold bind.
    destruct (_extract_entities c source_code file_path s) as [s1 [x | u']];
      simpl in Gc |- *.
    + apply (grows_within_trans (end_byte c) e s s s1);
        [exact H2 | apply grows_within_refl |].
      destruct Gc as [[cn [Ec Fc]] Gm]. split; [| exact Gm].
      exists cn. split; [exact Ec |].
      eapply Forall_impl; [| exact Fc]. intros c0 [Hf He]. split; [exact Hf | lia].
    + apply (grows_within_trans (end_byte c) e s s1); [exact H2 | exact Gc |].
      apply (IHr IHrest s1 (end_byte c)); [lia | | exact Hr].
      intros c0 Hin Hf. destruct Gc as [[cn [Ec Fc]] _].
      rewrite Ec in Hin. apply in_app_or in Hin. destruct Hin as [Hin | Hin].
      * destruct (Hs c0 Hin Hf) as [H | H]; [left; lia | right; exact H].
      * rewrite Forall_forall in Fc. destruct (Fc c0 Hin) as [_ He]. left. lia.
Qed.

End Nesting.

(** C5 (a counterexample to the claim as stated). In
    [class A { void f() {} } class B { class A {} }] the method [f]
    records the class name [A]; the file has two class entities named
    [A], and the nested one, spanning bytes [34, 44), is of the method's
    file and has the name the method records, yet does not contain the
    method's span [10, 21). *)
Lemma C5_same_named_class_does_not_contain_the_method :
  let s := fst (_extract_entities same_name_root
                  (Bytes (list_byte_of_string same_name_source))
                  "proj/S.java" initial_state) in
  map (fun c => (c_name c, c_start_byte c, c_end_byte c)) (classes_of s)
    = [("A", 0, 23); ("B", 24, 46); ("A", 34, 44)] /\
  map (fun m => (m_name m, m_class m, m_start_byte m, m_end_byte m)) (methods_of s)
    = [("f", "A", 10, 21)] /\
  exists c m,
    In c (classes_of s) /\ In m (methods_of s) /\
    c_file c = m_file m /\ c_name c = m_class m /\
    ~ (c_start_byte c <= m_start_byte m /\ m_end_byte m <= c_end_byte c).
Proof.
  cbv zeta. split; [vm_compute; reflexivity | split; [vm_compute; reflexivity |]].
  exists {| c_name := "A"; c_file := "proj/S.java";
            c_start_byte := 34; c_end_byte := 44 |},
         {| m_name := "f"; m_class := "A"; m_file := "proj/S.java";
            m_start_byte := 10; m_end_byte := 21 |}.
  split; [vm_compute; tauto |]. split; [vm_compute; tauto |].
  split; [reflexivity |]. split; [reflexivity |].
  simpl. lia.
Qed.

(** C5 (amended). Scanning a file whose tree is well nested, into entities that
    hold no class of that file yet: every method entity the extraction
    appends is of the file, and its owning class (the first listed class
    enclosing its start, whose name it records), whenever that class is of
    the same file, has a span that contains the method's span. *)
Theorem C5_method_span_within_owning_class_span
        (root : Node) (source_code : data) (file_path : string) (s0 : State) :
  well_nested root = true ->
  forallb (fun c => negb (String.eqb (c_file c) file_path)) (classes_of s0) = true ->
  exists new,
    methods_of (fst (_extract_entities root source_code file_path s0))
      = methods_of s0 ++ new /\
    forall m, In m new ->
      m_file m = file_path /\
      exists c,
        find (encloses (m_start_byte m))
             (classes_of (fst (_extract_entities root source_code file_path s0)))
          = Some c /\
        m_class m = c_name c /\
        (c_file c = file_path ->
         c_start_byte c <= m_start_byte m /\ m_end_byte m <= c_end_byte c).
Proof.
  intros Hwf Hfresh.
  assert (Hs : settled_before file_path (start_byte root) (start_byte root)
                              (end_byte root) (classes_of s0)).
  { intros c Hin Hf. rewrite forallb_forall in Hfresh.
    specialize (Hfresh c Hin). rewrite Hf, String.eqb_refl in Hfresh.
    discriminate. }
  destruct (_extract_entities_grows source_code file_path root Hwf s0 Hs)
    as [_ [new [E F]]].
  exists new. split; [exact E |].
  intros m Hin. rewrite Forall_forall in F. exact (F m Hin).
Qed.

Lemma C5_witness :
  exists new,
    methods_of (fst (_extract_entities Examples.nested_root
                       (Bytes (list_byte_of_string Examples.nested_source))
                       "proj/N.java" initial_state))
      = methods_of initial_state ++ new /\
    forall m, In m new ->
      m_file m = "proj/N.java" /\
      exists c,
        find (encloses (m_start_byte m))
             (classes_of (fst (_extract_entities Examples.nested_root
                                 (Bytes (list_byte_of_string Examples.nested_source))
                                 "proj/N.java" initial_state)))
          = Some c /\
        m_class m = c_name c /\
        (c_file c = "proj/N.java" ->
         c_start_byte c <= m_start_byte m /\ m_end_byte m <= c_end_byte c).
Proof.
  apply C5_method_span_within_owning_class_span; vm_compute; reflexivity.
Defined.

(** ** C9: upserts are merges *)

Section Merging.
Import Neo4j.

Lemma find_ids_app p ns n i :
  find_ids p (ns ++ [n]) i =
  find_ids p ns i ++ (if p n then [i + List.length ns] else []).
Proof.
  revert i. induction ns as [| x r IH]; intros i; simpl.
  - rewrite Nat.add_0_r. reflexivity.
  - rewrite IH. replace (S i + List.length r) with (i + S (List.length r)) by lia.
    now destruct (p x).
Qed.

Lemma own_match lbl pat :
  upsert_pattern lbl pat -> matches lbl pat {| label := lbl; props := pat |} = true.
Proof.
  intros []; unfold matches, has_props; simpl;
    now rewrite ?String.eqb_refl.
Qed.

Lemma match_same lbl pat lbl' pat' :
  upsert_pattern lbl pat -> upsert_pattern lbl' pat' ->
  matches lbl pat {| label := lbl'; props := pat' |} = true ->
  lbl = lbl' /\ pat = pat'.
Proof.
  intros [] []; unfold matches, has_props; simpl; intros H;
    try discriminate;
    repeat (apply andb_true_iff in H; destruct H as [? H]);
    repeat match goal with
           | E : String.eqb _ _ = true |- _ => apply String.eqb_eq in E; subst
           end; auto.
Qed.

Lemma keeps_refl g : keeps g g.
Proof. split; auto. Qed.

Lemma keeps_trans g1 g2 g3 : keeps g1 g2 -> keeps g2 g3 -> keeps g1 g3.
Proof.
  intros [M1 R1] [M2 R2]. split; [| auto].
  intros lbl pat Hp Hpres. rewrite M2; auto.
  unfold present in *. now rewrite M1.
Qed.

Lemma merge_node_keeps lbl pat g :
  upsert_pattern lbl pat ->
  keeps g (fst (merge_node lbl pat g)) /\
  present lbl pat (fst (merge_node lbl pat g)) /\
  snd (merge_node lbl pat g) = match_nodes lbl pat (fst (merge_node lbl pat g)).
Proof.
  intros Hp. unfold merge_node.
  destruct (match_nodes lbl pat g) as [| i ids] eqn:Em; simpl.
  - assert (Hnew : match_nodes lbl pat
                     {| nodes := nodes g ++ [{| label := lbl; props := pat |}];
                        rels := rels g |} = [List.length (nodes g)]).
    { unfold match_nodes in *. simpl. rewrite find_ids_app, Em, own_match; auto. }
    split; [| split].
    + split; [| auto]. intros l0 p0 Hp0 Hpres.
      unfold match_nodes. simpl. rewrite find_ids_app.
      destruct (matches l0 p0 {| label := lbl; props := pat |}) eqn:Ematch.
      * destruct (match_same _ _ _ _ Hp0 Hp Ematch) as [-> ->].
        now elim Hpres.
      * now rewrite app_nil_r.
    + unfold present. rewrite Hnew. discriminate.
    + now rewrite Hnew.
  - split; [apply keeps_refl | split].
    + unfold present. rewrite Em. discriminate.
    + now rewrite Em.
Qed.

Lemma merge_node_settled lbl pat g :
  present lbl pat g -> merge_node lbl pat g = (g, match_nodes lbl pat g).
Proof.
  unfold present, merge_node. destruct (match_nodes lbl pat g); [now intros [] | auto].
Qed.

Lemma rel_eqb_refl r : rel_eqb r r = true.
Proof. unfold rel_eqb. now rewrite !Nat.eqb_refl, String.eqb_refl. Qed.

Lemma merge_rel_keeps r g :
  keeps g (merge_rel r g) /\ has_rel r (merge_rel r g) = true.
Proof.
  unfold merge_rel. destruct (has_rel r g) eqn:E.
  - split; [apply keeps_refl | exact E].
  - split.
    + split; [reflexivity |]. intros r0 H. unfold has_rel in *. simpl.
      rewrite existsb_app, H. reflexivity.
    + unfold has_rel. simpl. rewrite existsb_app. simpl.
      rewrite rel_eqb_refl. apply orb_true_iff. right. reflexivity.
Qed.

Lemma merge_rels_keeps rs g :
  keeps g (merge_rels rs g) /\
  (forall r, In r rs -> has_rel r (merge_rels rs g) = true).
Proof.
  unfold merge_rels. revert g. induction rs as [| r rest IH]; intros g; simpl.
  - split; [apply keeps_refl | intros r []].
  - destruct (merge_rel_keeps r g) as [K1 H1].
    destruct (IH (merge_rel r g)) as [K2 H2]. split.
    + eapply keeps_trans; eauto.
    + intros r0 [<- | Hin]; [| auto]. apply K2. exact H1.
Qed.

Lemma merge_rels_settled rs g :
  (forall r, In r rs -> has_rel r g = true) -> merge_rels rs g = g.
Proof.
  unfold merge_rels. induction rs as [| r rest IH]; intros H; simpl; [reflexivity |].
  unfold merge_rel at 2. rewrite (H r (or_introl eq_refl)).
  apply IH. intros r0 Hin. apply H. now right.
Qed.

Lemma in_rows xs ys x y : In (x, y) (rows xs ys) <-> In x xs /\ In y ys.
Proof.
  unfold rows. rewrite in_flat_map. split.
  - intros [x0 [Hx Hin]]. apply in_map_iff in Hin.
    destruct Hin as [y0 [E Hy]]. inversion E; subst. auto.
  - intros [Hx Hy]. exists x. split; [exact Hx |].
    apply in_map_iff. exists y. auto.
Qed.

(** an upsert leaves the graph settled for itself *)
Lemma upsert_settles c g : is_upsert c = true -> settled c (graph_after c g).
Proof.
  destruct c as [cn fp | mn cn fp | d]; intros _; [| | exact I].
  - unfold graph_after. simpl. unfold _create_class_node_transaction.
    apply merge_node_keeps. constructor.
  - unfold graph_after. simpl. unfold _create_method_node_transaction.
    pose proof (merge_node_keeps "Method"
      [("name", VStr mn); ("class", VStr cn); ("file", VStr fp)] g
      (method_pattern mn cn fp)) as [K1 [P1 S1]].
    destruct (merge_node "Method" _ g) as [g1 ms]. simpl in K1, P1, S1.
    pose proof (merge_node_keeps "Class"
      [("name", VStr cn); ("file", VStr fp)] g1
      (class_pattern cn fp)) as [K2 [P2 S2]].
    destruct (merge_node "Class" _ g1) as [g2 cs]. simpl in K2, P2, S2.
    match goal with
    | |- context [merge_rels ?rs g2] =>
      destruct (merge_rels_keeps rs g2) as [[M3 R3] H3];
        set (g3 := merge_rels rs g2) in *
    end.
    assert (Em2 : match_nodes "Method"
                    [("name", VStr mn); ("class", VStr cn); ("file", VStr fp)] g2
                  = ms).
    { rewrite S1. apply K2; [constructor | exact P1]. }
    assert (Pm2 : present "Method"
                    [("name", VStr mn); ("class", VStr cn); ("file", VStr fp)] g2).
    { unfold present in *. rewrite Em2, S1. exact P1. }
    unfold present in *.
    rewrite (M3 _ _ (method_pattern mn cn fp) Pm2).
    rewrite (M3 _ _ (class_pattern cn fp) P2).
    split; [exact Pm2 | split; [exact P2 |]].
    intros m c Hm Hc. apply H3. apply in_map_iff.
    exists (m, c). split; [reflexivity |].
    apply in_rows. rewrite Em2 in Hm. rewrite <- S2 in Hc. auto.
Qed.

(** on a graph settled for it, an upsert changes nothing *)
Lemma settled_upsert_is_noop c g :
  is_upsert c = true -> settled c g -> graph_after c g = g.
Proof.
  destruct c as [cn fp | mn cn fp | d]; intros Hu Hs; [| | discriminate].
  - unfold graph_after. simpl. unfold _create_class_node_transaction.
    simpl in Hs. now rewrite merge_node_settled.
  - unfold graph_after. simpl. unfold _create_method_node_transaction.
    destruct Hs as [Pm [Pc Hl]].
    rewrite (merge_node_settled _ _ _ Pm), (merge_node_settled _ _ _ Pc).
    apply merge_rels_settled. intros r Hin. apply in_map_iff in Hin.
    destruct Hin as [[m c] [<- Hin]]. apply in_rows in Hin. simpl.
    apply Hl; tauto.
Qed.

Lemma settled_kept c g g' :
  is_upsert c = true -> settled c g -> keeps g g' -> settled c g'.
Proof.
  destruct c as [cn fp | mn cn fp | d]; intros Hu Hs [M R]; [| | exact I].
  - simpl in *. unfold present in *. rewrite M; [exact Hs | constructor | exact Hs].
  - destruct Hs as [Pm [Pc Hl]]. simpl. unfold present in *.
    rewrite (M _ _ (method_pattern mn cn fp) Pm).
    rewrite (M _ _ (class_pattern cn fp) Pc).
    split; [exact Pm | split; [exact Pc |]]. intros m c Hm Hc. apply R. auto.
Qed.

Lemma upsert_keeps c g : is_upsert c = true -> keeps g (graph_after c g).
Proof.
  destruct c as [cn fp | mn cn fp | d]; intros Hu; [| | discriminate].
  - unfold graph_after. simpl. unfold _create_class_node_transaction.
    apply merge_node_keeps. constructor.
  - unfold graph_after. simpl. unfold _create_method_node_transaction.
    pose proof (merge_node_keeps "Method"
      [("name", VStr mn); ("class", VStr cn); ("file", VStr fp)] g
      (method_pattern mn cn fp)) as [K1 _].
    destruct (merge_node "Method" _ g) as [g1 ms]. simpl in K1.
    pose proof (merge_node_keeps "Class"
      [("name", VStr cn); ("file", VStr fp)] g1
      (class_pattern cn fp)) as [K2 _].
    destruct (merge_node "Class" _ g1) as [g2 cs]. simpl in K2.
    eapply keeps_trans; [exact K1 |]. eapply keeps_trans; [exact K2 |].
    apply merge_rels_keeps.
Qed.

Lemma graph_of_replay cs st :
  graph_of (replay cs st) = fold_left (fun g c => graph_after c g) cs (graph_of st).
Proof.
  unfold replay. revert st. induction cs as [| c r IH]; intros st; simpl.
  - reflexivity.
  - rewrite IH. f_equal. unfold graph_after.
    destruct c; simpl; try reflexivity.
    now destruct (_create_dependency_transaction dependency_data (graph_of st))
      as [e | [g' lines]].
Qed.

Lemma upserts_settle cs g :
  forallb is_upsert cs = true ->
  keeps g (fold_left (fun g c => graph_after c g) cs g) /\
  Forall (fun c => settled c (fold_left (fun g c => graph_after c g) cs g)) cs.
Proof.
  revert g. induction cs as [| c r IH]; intros g Hu; simpl.
  - split; [apply keeps_refl | constructor].
  - simpl in Hu. apply andb_true_iff in Hu. destruct Hu as [Hc Hr].
    destruct (IH (graph_after c g) Hr) as [K F]. split.
    + eapply keeps_trans; [apply upsert_keeps; exact Hc | exact K].
    + constructor; [| exact F].
      eapply settled_kept; [exact Hc | apply upsert_settles; exact Hc | exact K].
Qed.

Lemma settled_upserts_are_noop cs g :
  forallb is_upsert cs = true ->
  Forall (fun c => settled c g) cs ->
  fold_left (fun g c => graph_after c g) cs g = g.
Proof.
  induction cs as [| c r IH]; intros Hu Hs; simpl; [reflexivity |].
  simpl in Hu. apply andb_true_iff in Hu. destruct Hu as [Hc Hr].
  inversion Hs; subst. rewrite settled_upsert_is_noop; auto.
Qed.

(** replaying a sequence of upserts a second time changes nothing *)
Lemma upserts_idempotent cs st :
  forallb is_upsert cs = true ->
  graph_of (replay (cs ++ cs) st) = graph_of (replay cs st).
Proof.
  intros Hu. rewrite !graph_of_replay, fold_left_app.
  apply settled_upserts_are_noop; [exact Hu |].
  now apply upserts_settle.
Qed.

End Merging.

(** C9. The persister calls that entity extraction makes on a file are
    upserts, and persisting them twice leaves the same graph (the same
    nodes and relationships, so no duplicate node) as persisting them
    once, from any store. *)
Theorem C9_entity_extraction_persists_idempotently
        (root : Node) (source_code : data) (file_path : string) (s0 : State) :
  exists calls,
    graph_log (fst (_extract_entities root source_code file_path s0))
      = graph_log s0 ++ calls /\
    forallb is_upsert calls = true /\
    forall st,
      Neo4j.graph_of (Neo4j.replay (calls ++ calls) st)
      = Neo4j.graph_of (Neo4j.replay calls st).
Proof.
  destruct (_extract_entities_preserves
              (extends graph_log (fun c => is_upsert c = true))
              root source_code file_path (extends_preorder _ _)
              (fun n => visit_only_upserts n source_code file_path) s0)
    as [calls [E F]].
  assert (Hu : forallb is_upsert calls = true).
  { apply forallb_forall. rewrite Forall_forall in F. exact F. }
  exists calls. split; [exact E | split; [exact Hu |]].
  intros st. now apply upserts_idempotent.
Qed.

(** ** C7: implements or extends, never both *)

Section Inheritance.
Import Neo4j.

Lemma only_adds_refl t g : only_adds t g g.
Proof. exists []. now rewrite app_nil_r. Qed.

Lemma only_adds_trans t g1 g2 g3 :
  only_adds t g1 g2 -> only_adds t g2 g3 -> only_adds t g1 g3.
Proof.
  intros [n1 [E1 F1]] [n2 [E2 F2]]. exists (n1 ++ n2). split.
  - now rewrite E2, E1, app_assoc.
  - apply Forall_app; auto.
Qed.

Lemma merge_node_rels lbl pat g : rels (fst (merge_node lbl pat g)) = rels g.
Proof. unfold merge_node. now destruct (match_nodes lbl pat g). Qed.

Lemma merge_rels_only_adds t rs g :
  Forall (fun r => rel_type r = t) rs -> only_adds t g (merge_rels rs g).
Proof.
  unfold merge_rels. revert g. induction rs as [| r rest IH]; intros g F; simpl.
  - apply only_adds_refl.
  - inversion F; subst. eapply only_adds_trans; [| apply IH; assumption].
    unfold merge_rel. destruct (has_rel r g); [apply only_adds_refl |].
    exists [r]. split; [reflexivity | now constructor].
Qed.

Lemma link_each_only_adds cs lbl pat t g :
  only_adds t g (link_each cs lbl pat t g).
Proof.
  unfold link_each. revert g. induction cs as [| c rest IH]; intros g; simpl.
  - apply only_adds_refl.
  - eapply only_adds_trans; [| apply IH].
    pose proof (merge_node_rels lbl pat g) as Er.
    destruct (merge_node lbl pat g) as [g1 targets]. simpl in Er.
    destruct (merge_rels_only_adds t
                (map (fun i => {| src := c; rel_type := t; dst := i |}) targets) g1)
      as [new [E F]].
    { apply Forall_forall. intros r Hin. apply in_map_iff in Hin.
      now destruct Hin as [i [<- _]]. }
    exists new. now rewrite E, Er.
Qed.



End Inheritance.




(* ================================================================== *)
(** * Further properties *)
(* ================================================================== *)

(** ** File discovery *)

Lemma list_ascii_of_string_app a b :
  list_ascii_of_string (a ++ b)%string
  = list_ascii_of_string a ++ list_ascii_of_string b.
Proof. induction a as [| c r IH]; simpl; [reflexivity | now rewrite IH]. Qed.

Lemma split_slash_plain acc l :
  forallb (fun c => negb (Ascii.eqb c slash)) l = true ->
  split_slash acc l = [rev acc ++ l].
Proof.
  revert acc. induction l as [| c r IH]; intros acc H; simpl.
  - now rewrite app_nil_r.
  - simpl in H. apply andb_true_iff in H. destruct H as [Hc Hr].
    apply negb_true_iff in Hc. rewrite Hc, IH by exact Hr.
    simpl. now rewrite <- app_assoc.
Qed.

Lemma split_slash_after_slash acc l1 l2 :
  split_slash acc (l1 ++ slash :: l2) = split_slash acc l1 ++ split_slash [] l2.
Proof.
  revert acc. induction l1 as [| c r IH]; intros acc; simpl.
  - now rewrite ?Ascii.eqb_refl.
  - destruct (Ascii.eqb c slash); simpl; now rewrite IH.
Qed.

Lemma path_name_plain l :
  forallb (fun c => negb (Ascii.eqb c slash)) l = true ->
  is_component l = true -> path_name l = l.
Proof.
  intros H Hc. unfold path_name. rewrite split_slash_plain by exact H.
  simpl. now rewrite Hc.
Qed.

Lemma path_name_after_slash l1 l2 :
  forallb (fun c => negb (Ascii.eqb c slash)) l2 = true ->
  is_component l2 = true -> path_name (l1 ++ slash :: l2) = l2.
Proof.
  intros H Hc. unfold path_name.
  rewrite split_slash_after_slash, (split_slash_plain [] l2 H), filter_app.
  simpl. rewrite Hc. now rewrite last_last.
Qed.

Lemma path_name_join root f :
  no_slash f = true -> is_component (list_ascii_of_string f) = true ->
  path_name (list_ascii_of_string (os_path_join root f))
  = list_ascii_of_string f.
Proof.
  intros H Hc. unfold no_slash in H. unfold os_path_join.
  destruct (String.eqb root "") eqn:Er.
  { now apply path_name_plain. }
  destruct (rev (list_ascii_of_string root)) as [| c rest] eqn:Erev.
  { now apply path_name_plain. }
  destruct (Ascii.eqb c slash) eqn:Ec.
  - apply Ascii.eqb_eq in Ec. subst c.
    rewrite list_ascii_of_string_app.
    assert (Eroot : list_ascii_of_string root = rev rest ++ [slash]).
    { rewrite <- (rev_involutive (list_ascii_of_string root)), Erev. reflexivity. }
    rewrite Eroot, <- app_assoc. simpl.
    now apply path_name_after_slash.
  - rewrite !list_ascii_of_string_app. simpl.
    now apply (path_name_after_slash (list_ascii_of_string root)).
Qed.

(** a name with a supported extension is a path component *)
Lemma supported_name_is_component f :
  supported_extensions (suffix f) <> None ->
  is_component (list_ascii_of_string f) = true.
Proof.
  destruct f as [| c [| c' r]]; intros H.
  - now elim H.
  - simpl. destruct (Ascii.eqb c dot) eqn:Ec; [| reflexivity].
    apply Ascii.eqb_eq in Ec. subst c. now elim H.
  - reflexivity.
Qed.

Lemma suffix_join root f :
  no_slash f = true -> supported_extensions (suffix f) <> None ->
  suffix (os_path_join root f) = suffix f.
Proof.
  intros H Hs. pose proof (supported_name_is_component f Hs) as Hc.
  unfold suffix. rewrite path_name_join by assumption.
  unfold no_slash in H. now rewrite (path_name_plain _ H Hc).
Qed.

(** Every path [_get_files] returns is a listed file name joined to its
    directory, and keeps that name's extension, a supported one: the scan
    never meets a path it has to skip. The file names are those of a
    directory listing, without separator. *)
Theorem get_files_returns_supported_paths (P : Provider) (project_path p : string) :
  forallb (fun rf => forallb no_slash (snd rf)) (os_walk P project_path) = true ->
  In p (_get_files P project_path) ->
  exists root files f,
    In (root, files) (os_walk P project_path) /\ In f files /\
    p = os_path_join root f /\
    suffix p = suffix f /\
    supported_extensions (suffix p) <> None.
Proof.
  intros Hw Hin. unfold _get_files in Hin.
  apply in_flat_map in Hin. destruct Hin as [[root files] [Hrf Hin]].
  apply in_flat_map in Hin. destruct Hin as [f [Hf Hin]]. simpl in Hf, Hin.
  rewrite forallb_forall in Hw. specialize (Hw _ Hrf). simpl in Hw.
  rewrite forallb_forall in Hw. specialize (Hw _ Hf).
  destruct (supported_extensions (suffix f)) as [language |] eqn:Es; [| destruct Hin].
  destruct Hin as [<- | []].
  assert (Hs : supported_extensions (suffix f) <> None)
    by (rewrite Es; discriminate).
  exists root, files, f. rewrite (suffix_join root f Hw Hs), Es.
  repeat split; auto. discriminate.
Qed.

Lemma get_files_returns_supported_paths_witness :
  exists root files f,
    In (root, files) (os_walk Examples.pair_project "proj") /\ In f files /\
    "proj/AB.java" = os_path_join root f /\
    suffix "proj/AB.java" = suffix f /\
    supported_extensions (suffix "proj/AB.java") <> None.
Proof.
  apply (get_files_returns_supported_paths Examples.pair_project "proj" "proj/AB.java").
  - vm_compute. reflexivity.
  - vm_compute. left. reflexivity.
Defined.

(** ** Scope resolution *)

Lemma find_enclosing_entity_decompose
      {E} `{Entity E} (b : nat) (es : list E) (file_path : string) (e : E) :
  _find_enclosing_entity b es file_path = Some e ->
  exists before after,
    es = before ++ e :: after /\
    file e = file_path /\ encloses b e = true /\
    enclosed_by_some b before file_path = false.
Proof.
  unfold _find_enclosing_entity, enclosed_by_some.
  induction es as [| x r IH]; simpl; [discriminate |].
  destruct (String.eqb (file x) file_path) eqn:Ef; simpl.
  - destruct (encloses b x) eqn:Ee.
    + intros [= <-]. exists [], r. apply String.eqb_eq in Ef. auto.
    + intros Hfind. destruct (IH Hfind) as [before [after [-> [Hf [He Hb]]]]].
      exists (x :: before), after. simpl. rewrite Ef, Ee. auto.
  - intros Hfind. destruct (IH Hfind) as [before [after [-> [Hf [He Hb]]]]].
    exists (x :: before), after. simpl. rewrite Ef. auto.
Qed.

Lemma find_enclosing_entity_compose
      {E} `{Entity E} (b : nat) (before after : list E) (file_path : string) (e : E) :
  file e = file_path -> encloses b e = true ->
  enclosed_by_some b before file_path = false ->
  _find_enclosing_entity b (before ++ e :: after) file_path = Some e.
Proof.
  unfold _find_enclosing_entity, enclosed_by_some. intros Hf He.
  induction before as [| x r IH]; simpl; intros Hb.
  - rewrite Hf, String.eqb_refl. simpl. now rewrite He.
  - apply orb_false_iff in Hb. destruct Hb as [Hx Hr].
    destruct (String.eqb (file x) file_path); simpl in *.
    + rewrite Hx. now apply IH.
    + now apply IH.
Qed.

(** [_find_enclosing_entity] answers [e] exactly when [e] is the first
    entity of the list that is of the file and whose span holds the
    offset: no entity listed before it is both. *)
Theorem find_enclosing_entity_is_first_of_file
        {E} `{Entity E} (b : nat) (es : list E) (file_path : string) (e : E) :
  _find_enclosing_entity b es file_path = Some e <->
  exists before after,
    es = before ++ e :: after /\
    file e = file_path /\ encloses b e = true /\
    enclosed_by_some b before file_path = false.
Proof.
  split.
  - apply find_enclosing_entity_decompose.
  - intros [before [after [-> [Hf [He Hb]]]]].
    now apply find_enclosing_entity_compose.
Qed.

(** ** Reading text *)

Lemma valid_utf8_ascii bs : forallb ascii_byte bs = true -> valid_utf8 bs = true.
Proof.
  induction bs as [| b r IH]; intros H; simpl; [reflexivity |].
  simpl in H. apply andb_true_iff in H. destruct H as [Hb Hr].
  unfold ascii_byte in Hb. apply Nat.ltb_lt in Hb.
  assert (Eb : between 0 127 b = true).
  { unfold between. apply andb_true_iff. split; apply Nat.leb_le; lia. }
  rewrite Eb. now apply IH.
Qed.

Lemma forallb_firstn {A} (p : A -> bool) n l :
  forallb p l = true -> forallb p (firstn n l) = true.
Proof.
  revert l. induction n as [| n IH]; intros [| x r] H; simpl; auto.
  simpl in H. apply andb_true_iff in H. destruct H as [Hx Hr].
  rewrite Hx. now apply IH.
Qed.

Lemma forallb_skipn {A} (p : A -> bool) n l :
  forallb p l = true -> forallb p (skipn n l) = true.
Proof.
  revert l. induction n as [| n IH]; intros [| x r] H; simpl; auto.
  simpl in H. apply andb_true_iff in H. destruct H as [_ Hr]. now apply IH.
Qed.

(** On a source of ASCII bytes, the text of any node is read without an
    exception, whatever its span: it is the slice itself, cut to the
    source's length, and empty when the span starts at or past the end. *)
Theorem get_node_text_of_ascii_source (n : Node) (source : bytes) :
  forallb ascii_byte source = true ->
  _get_node_text (Some n) (Bytes source)
    = ok (string_of_list_byte (slice source (start_byte n) (end_byte n))) /\
  (List.length source <= start_byte n ->
   _get_node_text (Some n) (Bytes source) = ok EmptyString).
Proof.
  intros H.
  assert (Hv : valid_utf8 (slice source (start_byte n) (end_byte n)) = true).
  { apply valid_utf8_ascii. unfold slice.
    now apply forallb_firstn, forallb_skipn. }
  assert (E : _get_node_text (Some n) (Bytes source)
              = ok (string_of_list_byte (slice source (start_byte n) (end_byte n)))).
  { unfold _get_node_text, decode. now rewrite Hv. }
  split; [exact E |].
  intros Hlen. rewrite E. unfold slice.
  rewrite skipn_all2 by exact Hlen. now rewrite firstn_nil.
Qed.

Lemma get_node_text_of_ascii_source_witness :
  _get_node_text (Some Examples.simple_f)
                 (Bytes (list_byte_of_string Examples.simple_source))
    = ok (string_of_list_byte
            (slice (list_byte_of_string Examples.simple_source)
                   (start_byte Examples.simple_f) (end_byte Examples.simple_f))) /\
  (List.length (list_byte_of_string Examples.simple_source)
   <= start_byte Examples.simple_f ->
   _get_node_text (Some Examples.simple_f)
                  (Bytes (list_byte_of_string Examples.simple_source))
   = ok EmptyString).
Proof.
  apply get_node_text_of_ascii_source. vm_compute. reflexivity.
Defined.

(** ** The callers of the method-source lookup *)

(** Whatever the model, the file and the method asked for, the three
    methods that start from a method's source answer the not-found
    message, without a call to the model. *)
Theorem llm_methods_always_answer_not_found
        (m : Gemini.Model) (P : Provider) (method_name file_path : string) :
  Gemini.summarize_method m P method_name file_path = Gemini.not_found /\
  Gemini.generate_javadoc m P method_name file_path = Gemini.not_found /\
  Gemini.suggest_refactoring m P method_name file_path = Gemini.not_found.
Proof.
  unfold Gemini.summarize_method, Gemini.generate_javadoc,
    Gemini.suggest_refactoring.
  rewrite get_method_source_never_answers. auto.
Qed.

(** ** Entity extraction: when it raises, what it lists *)


Lemma visit_outcome node source_code file_path s :
  snd (visit node source_code file_path s) = ok tt <->
  negb (declares node) || name_readable source_code node = true.
Proof.
  unfold visit, declares, name_readable.
  destruct (String.eqb (type node) "class_declaration"); simpl.
  { unfold bind, lift.
    destruct (_get_node_text (child_by_field_name node "name") source_code);
      simpl; split; auto; discriminate. }
  destruct (String.eqb (type node) "method_declaration"); simpl.
  { unfold bind, lift, get.
    destruct (_get_node_text (child_by_field_name node "name") source_code);
      simpl; [split; discriminate |].
    destruct (find _ (classes (entities s))); simpl; tauto. }
  tauto.
Qed.





(** ** What dependency extraction leaves alone *)

#[global] Instance same_frame_preorder : PreOrder same_frame.
Proof.
  split.
  - intros s. repeat split.
  - intros a b c [C1 [M1 L1]] [C2 [M2 L2]]. unfold same_frame. 
    rewrite C2, M2, L2. auto.
Qed.

Lemma _process_dependency_same_frame captures lang source_code file_path :
  preserves same_frame
            (_process_dependency captures lang source_code file_path).
Proof.
  unfold _process_dependency. apply preserves_for_each; [typeclasses eauto |].
  intros [node tag] _. unfold process_capture, process_call.
  preserving; intros ?; repeat split.
Qed.

(** Dependency extraction reads the entities and never changes them: after
    it the classes, the methods and the persister's call log are what they
    were, and the dependencies are the old ones followed by new ones,
    whether or not it raised. *)
Theorem dependency_extraction_only_appends_dependencies
        (captures : Captures) (lang : string) (source_code : data)
        (file_path : string) (s : State) :
  classes_of (fst (_process_dependency captures lang source_code file_path s))
    = classes_of s /\
  methods_of (fst (_process_dependency captures lang source_code file_path s))
    = methods_of s /\
  graph_log (fst (_process_dependency captures lang source_code file_path s))
    = graph_log s /\
  exists new,
    deps_of (fst (_process_dependency captures lang source_code file_path s))
    = deps_of s ++ new.
Proof.
  destruct (_process_dependency_same_frame captures lang source_code file_path s)
    as [Hc [Hm Hl]].
  destruct (_process_dependency_emits captures lang source_code file_path s)
    as [new [E _]].
  repeat split; auto. now exists new.
Qed.

(** ** The entities in memory and the calls on the persister *)

#[global] Instance mirrors_preorder : PreOrder mirrors.
Proof.
  split.
  - intros s. exists [], [], []. now rewrite !app_nil_r.
  - intros a b c [c1 [m1 [l1 [Ec1 [Em1 [El1 [Fc1 Fm1]]]]]]]
                 [c2 [m2 [l2 [Ec2 [Em2 [El2 [Fc2 Fm2]]]]]]].
    exists (c1 ++ c2), (m1 ++ m2), (l1 ++ l2).
    rewrite Ec2, Ec1, Em2, Em1, El2, El1, !filter_app, !map_app, !app_assoc.
    rewrite Fc1, Fc2, Fm1, Fm2. auto.
Qed.

Lemma same_frame_mirrors s s' : same_frame s s' -> mirrors s s'.
Proof.
  intros [Hc [Hm Hl]]. exists [], [], []. now rewrite !app_nil_r.
Qed.

Lemma visit_mirrors node source_code file_path :
  preserves mirrors (visit node source_code file_path).
Proof.
  intros s. unfold visit.
  destruct (String.eqb (type node) "class_declaration").
  { unfold bind, lift.
    destruct (_get_node_text (child_by_field_name node "name") source_code)
      as [e | class_name]; simpl; [reflexivity |].
    eexists [_], [], [_]. rewrite app_nil_r. repeat split; reflexivity. }
  destruct (String.eqb (type node) "method_declaration"); [| reflexivity].
  unfold bind, lift, get.
  destruct (_get_node_text (child_by_field_name node "name") source_code)
    as [e | method_name]; simpl; [reflexivity |].
  destruct (find _ (classes (entities s))) as [c |]; simpl; [| reflexivity].
  eexists [], [_], [_]. rewrite app_nil_r. repeat split; reflexivity.
Qed.

Lemma scan_file_mirrors P file_path : preserves mirrors (scan_file P file_path).
Proof.
  unfold scan_file. preserving.
  - apply _extract_entities_preserves; [typeclasses eauto |].
    intros n. apply visit_mirrors.
  - intros s. apply same_frame_mirrors.
    apply _process_dependency_same_frame.
Qed.

Lemma no_class_call_among_dependencies ds :
  filter is_class_call (map create_dependency ds) = [] /\
  filter is_method_call (map create_dependency ds) = [].
Proof. induction ds as [| d r [IH1 IH2]]; simpl; auto. Qed.

(** After a project scan, ended or raised, the class upserts it sent to
    the persister are, in order, exactly the class entities it holds, one
    call per entity with the entity's name and file; and the method
    upserts are exactly the method entities, with name, class and file. *)
Theorem scan_project_upserts_mirror_its_entities
        (P : Provider) (project_path : string) (s : State) :
  exists calls,
    graph_log (fst (scan_project P project_path s)) = graph_log s ++ calls /\
    filter is_class_call calls
      = map upsert_of_class (classes_of (fst (scan_project P project_path s))) /\
    filter is_method_call calls
      = map upsert_of_method (methods_of (fst (scan_project P project_path s))).
Proof.
  assert (H1 : mirrors (fresh s) (fst (first_phase P project_path s))).
  { unfold first_phase.
    apply (preserves_for_each _ _ _ mirrors_preorder).
    intros f _. apply scan_file_mirrors. }
  destruct H1 as [cnew [mnew [calls [Ec [Em [El [Fc Fm]]]]]]].
  simpl in Ec, Em, El.
  rewrite scan_project_phases.
  destruct (first_phase P project_path s) as [s1 [e | u]]; simpl in *.
  - exists calls. rewrite Ec, Em. auto.
  - exists (calls ++ map create_dependency (deps_of s1)).
    destruct (no_class_call_among_dependencies (deps_of s1)) as [N1 N2].
    unfold classes_of, methods_of in *. simpl.
    rewrite El, <- app_assoc, !filter_app, N1, N2, !app_nil_r, Ec, Em. auto.
Qed.

#[global] Instance keeps_naming_preorder : PreOrder keeps_naming.
Proof.
  split.
  - intros s H. exact H.
  - intros a b c H1 H2 H. auto.
Qed.

Lemma visit_keeps_naming node source_code file_path :
  preserves keeps_naming (visit node source_code file_path).
Proof.
  intros s Hinv. unfold visit.
  destruct (String.eqb (type node) "class_declaration").
  { unfold bind, lift.
    destruct (_get_node_text (child_by_field_name node "name") source_code)
      as [e | class_name]; simpl; [exact Hinv |].
    intros m Hm. destruct (Hinv m Hm) as [c [Hc Hn]].
    exists c. split; [| exact Hn].
    unfold classes_of. simpl. apply in_or_app. now left. }
  destruct (String.eqb (type node) "method_declaration"); [| exact Hinv].
  unfold bind, lift, get.
  destruct (_get_node_text (child_by_field_name node "name") source_code)
    as [e | method_name]; simpl; [exact Hinv |].
  destruct (find _ (classes (entities s))) as [c |] eqn:Ef; simpl; [| exact Hinv].
  intros m Hm. unfold methods_of in Hm. simpl in Hm.
  apply in_app_or in Hm. destruct Hm as [Hm | [<- | []]].
  - exact (Hinv m Hm).
  - exists c. apply find_some in Ef. split; [apply Ef | reflexivity].
Qed.

Lemma scan_file_keeps_naming P file_path :
  preserves keeps_naming (scan_file P file_path).
Proof.
  unfold scan_file. preserving.
  - apply _extract_entities_preserves; [typeclasses eauto |].
    intros n. apply visit_keeps_naming.
  - intros s Hinv.
    destruct (_process_dependency_same_frame
                a2 (if String.eqb (suffix file_path) ".java"
                    then "java" else "typescript")%string
                (Bytes a0) file_path s) as [Hc [Hm _]].
    intros m Hin. rewrite Hm in Hin. rewrite Hc. exact (Hinv m Hin).
Qed.

(** After a project scan, ended or raised, every method entity names a
    class entity that the scan holds: no method is left with a class name
    that was not extracted. *)
Theorem scan_project_methods_name_extracted_classes
        (P : Provider) (project_path : string) (s : State) :
  forall m, In m (methods_of (fst (scan_project P project_path s))) ->
    exists c, In c (classes_of (fst (scan_project P project_path s))) /\
              c_name c = m_class m.
Proof.
  assert (H1 : keeps_naming (fresh s) (fst (first_phase P project_path s))).
  { unfold first_phase.
    apply (preserves_for_each _ _ _ keeps_naming_preorder).
    intros f _. apply scan_file_keeps_naming. }
  assert (H0 : methods_name_classes (fresh s)) by (intros m []).
  specialize (H1 H0). rewrite scan_project_phases.
  destruct (first_phase P project_path s) as [s1 [e | u]]; exact H1.
Qed.

Lemma scan_project_methods_name_extracted_classes_witness :
  exists c,
    In c (classes_of (fst (scan_project Examples.pair_project "proj" initial_state))) /\
    c_name c = "B".
Proof.
  apply (scan_project_methods_name_extracted_classes
           Examples.pair_project "proj" initial_state
           {| m_name := "g"; m_class := "B"; m_file := "proj/AB.java";
              m_start_byte := 42; m_end_byte := 53 |}).
  vm_compute. right. left. reflexivity.
Defined.

(** ** A file that cannot be read *)

Lemma for_each_raises {S A} (body : A -> M S unit) (l : list A) (x : A) :
  In x l ->
  (forall s, exists e, snd (body x s) = inl e) ->
  forall s, exists e, snd (for_each l body s) = inl e.
Proof.
  intros Hin Hx. induction l as [| y r IH]; [destruct Hin |].
  intros s. simpl. unfold bind.
  destruct (body y s) as [s' [e | u]] eqn:Ey; simpl.
  - now exists e.
  - destruct Hin as [-> | Hin].
    + destruct (Hx s) as [e He]. rewrite Ey in He. discriminate.
    + apply IH. exact Hin.
Qed.

(** If one of the discovered files cannot be opened, the project scan
    raises instead of skipping it, and it makes no edge-creation call at
    all: the persister has received entity upserts only. *)
Theorem unreadable_file_aborts_the_scan
        (P : Provider) (project_path : string) (s : State)
        (f : string) (language : Language) (e : exn) :
  In f (_get_files P project_path) ->
  supported_extensions (suffix f) = Some language ->
  read_file P f = inl e ->
  (exists e', snd (scan_project P project_path s) = inl e') /\
  exists calls,
    graph_log (fst (scan_project P project_path s)) = graph_log s ++ calls /\
    forallb is_upsert calls = true.
Proof.
  intros Hin Hs Hr.
  assert (Hf : forall s0, exists e0, snd (scan_file P f s0) = inl e0).
  { intros s0. exists e. unfold scan_file. rewrite Hs.
    unfold bind, lift, _parse_file. rewrite Hr. reflexivity. }
  destruct (for_each_raises (scan_file P) _ f Hin Hf (fresh s)) as [e' He'].
  assert (H1 : extends graph_log (fun c => is_upsert c = true)
                       (fresh s) (fst (first_phase P project_path s))).
  { unfold first_phase.
    apply (preserves_for_each _ _ _ (extends_preorder _ _)).
    intros f0 _. apply scan_file_only_upserts. }
  destruct H1 as [calls [E F]]. simpl in E.
  rewrite scan_project_phases. unfold first_phase in *.
  destruct (for_each (_get_files P project_path) (scan_file P) (fresh s))
    as [s1 [x | u]]; simpl in *; [| discriminate].
  split; [now exists x |].
  exists calls. split; [exact E |].
  apply forallb_forall. rewrite Forall_forall in F. exact F.
Qed.

Lemma unreadable_file_aborts_the_scan_witness :
  (exists e', snd (scan_project unreadable_project "proj" initial_state) = inl e') /\
  exists calls,
    graph_log (fst (scan_project unreadable_project "proj" initial_state))
      = graph_log initial_state ++ calls /\
    forallb is_upsert calls = true.
Proof.
  apply (unreadable_file_aborts_the_scan
           unreadable_project "proj" initial_state "proj/A.java"
           JAVA_LANGUAGE OSError).
  - vm_compute. left. reflexivity.
  - vm_compute. reflexivity.
  - reflexivity.
Defined.

(** ** Dependency extraction, one whole capture list at a time *)

Lemma add_dependencies_nil s : add_dependencies [] s = s.
Proof.
  destruct s as [[cs ms ds] l]. unfold add_dependencies. simpl.
  now rewrite app_nil_r.
Qed.

Lemma add_dependencies_app a b s :
  add_dependencies b (add_dependencies a s) = add_dependencies (a ++ b) s.
Proof. unfold add_dependencies. simpl. now rewrite app_assoc. Qed.

Lemma for_each_adds {A} (body : A -> M State unit) (f : A -> list dict) l :
  (forall x, In x l -> forall s, body x s = (add_dependencies (f x) s, ok tt)) ->
  forall s, for_each l body s = (add_dependencies (flat_map f l) s, ok tt).
Proof.
  induction l as [| x r IH]; intros Hb s; simpl.
  - now rewrite add_dependencies_nil.
  - unfold bind. rewrite (Hb x (or_introl eq_refl)). simpl.
    rewrite IH by (intros y Hy; apply Hb; now right).
    now rewrite add_dependencies_app.
Qed.

Lemma flat_map_if {A B} (p : A -> bool) (g : A -> B) l :
  flat_map (fun x => if p x then [g x] else []) l = map g (filter p l).
Proof.
  induction l as [| x r IH]; simpl; [reflexivity |].
  destruct (p x); simpl; now rewrite IH.
Qed.

Lemma flat_map_one {A B} (g : A -> B) l : flat_map (fun x => [g x]) l = map g l.
Proof. induction l as [| x r IH]; simpl; [reflexivity | now rewrite IH]. Qed.

(** On the captures of the Java imports pattern, all tagged [import_path],
    with texts that can be decoded: extraction ends without exception and
    appends one import record per capture, in order, each with the
    capture's own text as its path, unchanged; nothing else changes. *)
Theorem java_imports_one_record_per_capture
        (captures : Captures) (source_code : data) (file_path : string)
        (s : State) :
  forallb (tagged "import_path") captures = true ->
  forallb (decodable source_code) captures = true ->
  _process_dependency captures "java" source_code file_path s
  = (add_dependencies
       (map (fun cap => import_record file_path (text_of source_code cap)) captures)
       s,
     ok tt).
Proof.
  intros Ht Hd. unfold _process_dependency.
  rewrite <- flat_map_one. apply for_each_adds.
  intros [node tag] Hin s0.
  rewrite forallb_forall in Ht, Hd.
  specialize (Ht _ Hin). specialize (Hd _ Hin).
  unfold tagged in Ht. simpl in Ht. apply String.eqb_eq in Ht. subst tag.
  unfold decodable in Hd. unfold text_of. simpl fst in *.
  unfold process_capture. cbn -[_get_node_text].
  unfold bind, lift.
  destruct (_get_node_text (Some node) source_code); [discriminate | reflexivity].
Qed.

Lemma java_imports_one_record_per_capture_witness :
  _process_dependency [(Examples.leaf "scoped_identifier" 6 7, "import_path");
                       (Examples.leaf "scoped_identifier" 16 17, "import_path")]
                      "java" (Bytes (list_byte_of_string Examples.implements_source))
                      "proj/C.java" initial_state
  = (add_dependencies
       (map (fun cap => import_record "proj/C.java"
                          (text_of (Bytes (list_byte_of_string Examples.implements_source))
                                   cap))
            [(Examples.leaf "scoped_identifier" 6 7, "import_path");
             (Examples.leaf "scoped_identifier" 16 17, "import_path")])
       initial_state,
     ok tt).
Proof.
  apply java_imports_one_record_per_capture; vm_compute; reflexivity.
Defined.

Lemma collect_interfaces_all captures source_code :
  forallb (decodable source_code) captures = true ->
  collect_interfaces captures source_code
  = ok (map (text_of source_code) (filter (tagged "interface") captures)).
Proof.
  induction captures as [| [n t] r IH]; intros H; [reflexivity |].
  cbn [forallb] in H. apply andb_true_iff in H. destruct H as [Hn Hr].
  cbn [collect_interfaces filter].
  change (tagged "interface" (n, t)) with (String.eqb t "interface").
  destruct (String.eqb t "interface"); [| now apply IH].
  cbn [map]. unfold decodable in Hn. unfold text_of at 1. cbn [fst] in *.
  destruct (_get_node_text (Some n) source_code) as [e | txt]; [discriminate |].
  cbn [rbind]. rewrite (IH Hr). reflexivity.
Qed.

(** On the captures of the Java inheritance pattern (tags [class_name] and
    [interface]), with texts that can be decoded: extraction appends one
    inheritance record per [class_name] capture, and every record carries
    ALL the interface names of the capture list, those of other class
    declarations of the file included. *)
Theorem java_inheritance_gives_every_class_all_interfaces
        (captures : Captures) (source_code : data) (file_path : string)
        (s : State) :
  forallb java_inheritance_tag captures = true ->
  forallb (decodable source_code) captures = true ->
  _process_dependency captures "java" source_code file_path s
  = (add_dependencies
       (map (fun cap =>
               implements_dict file_path (text_of source_code cap)
                 (map (text_of source_code)
                      (filter (tagged "interface") captures)))
            (filter (tagged "class_name") captures))
       s,
     ok tt).
Proof.
  intros Ht Hd. unfold _process_dependency.
  rewrite <- flat_map_if. apply for_each_adds.
  intros [node tag] Hin s0.
  pose proof (collect_interfaces_all captures source_code Hd) as Hall.
  rewrite forallb_forall in Ht, Hd.
  specialize (Ht _ Hin). specialize (Hd _ Hin).
  unfold java_inheritance_tag, tagged in Ht. simpl snd in Ht.
  unfold tagged at 1. simpl snd.
  unfold decodable in Hd. unfold text_of at 1. simpl fst in *.
  unfold process_capture.
  apply orb_true_iff in Ht. destruct Ht as [Ht | Ht];
    apply String.eqb_eq in Ht; subst tag; cbn -[_get_node_text collect_interfaces].
  - unfold bind, lift. rewrite Hall.
    destruct (_get_node_text (Some node) source_code); [discriminate | reflexivity].
  - now rewrite add_dependencies_nil.
Qed.

Lemma java_inheritance_gives_every_class_all_interfaces_witness :
  _process_dependency Examples.implements_merged "java"
                      (Bytes (list_byte_of_string Examples.implements_source))
                      "proj/C.java" initial_state
  = (add_dependencies
       (map (fun cap =>
               implements_dict "proj/C.java"
                 (text_of (Bytes (list_byte_of_string Examples.implements_source)) cap)
                 (map (text_of (Bytes (list_byte_of_string Examples.implements_source)))
                      (filter (tagged "interface") Examples.implements_merged)))
            (filter (tagged "class_name") Examples.implements_merged))
       initial_state,
     ok tt).
Proof.
  apply java_inheritance_gives_every_class_all_interfaces; vm_compute; reflexivity.
Defined.

(** On the captures of the TypeScript imports pattern, when the first
    [module_path] capture can be decoded: extraction appends one import
    record per [import_default] capture and none for the other captures,
    and every record carries the path of that FIRST [module_path],
    stripped of quotes; with no [module_path] capture, or an empty path,
    it appends nothing. *)
Theorem typescript_imports_share_the_first_module_path
        (captures : Captures) (source_code : data) (file_path : string)
        (s : State) (module_path : option string) :
  forallb ts_import_tag captures = true ->
  first_module_path captures source_code = ok module_path ->
  _process_dependency captures "typescript" source_code file_path s
  = (add_dependencies
       (match module_path with
        | Some p =>
          if truthy p
          then map (fun _ => import_record file_path p)
                   (filter (tagged "import_default") captures)
          else []
        | None => []
        end)
       s,
     ok tt).
Proof.
  intros Ht Hp. unfold _process_dependency.
  assert (E : (match module_path with
               | Some p =>
                 if truthy p
                 then map (fun _ : Node * string => import_record file_path p)
                          (filter (tagged "import_default") captures)
                 else []
               | None => []
               end)
              = flat_map (fun cap : Node * string =>
                            if tagged "import_default" cap
                            then match module_path with
                                 | Some p => if truthy p
                                             then [import_record file_path p]
                                             else []
                                 | None => []
                                 end
                            else []) captures).
  { clear. induction captures as [| c r IH]; simpl.
    - destruct module_path as [p |]; [now destruct (truthy p) | reflexivity].
    - destruct (tagged "import_default" c); simpl; [| exact IH].
      rewrite <- IH. destruct module_path as [p |]; [| reflexivity].
      now destruct (truthy p). }
  rewrite E. apply for_each_adds.
  intros [node tag] Hin s0.
  rewrite forallb_forall in Ht. specialize (Ht _ Hin).
  unfold ts_import_tag, tagged in Ht. simpl snd in Ht.
  unfold tagged. simpl snd. unfold process_capture.
  repeat (apply orb_true_iff in Ht; destruct Ht as [Ht | Ht]);
    apply String.eqb_eq in Ht; subst tag;
    cbn -[first_module_path truthy import_record];
    try (now rewrite add_dependencies_nil).
  unfold bind, lift. rewrite Hp. unfold ok.
  destruct module_path as [p |]; [| now rewrite add_dependencies_nil].
  destruct (truthy p); [reflexivity | now rewrite add_dependencies_nil].
Qed.

Lemma typescript_imports_share_the_first_module_path_witness :
  _process_dependency Examples.imports_captures "typescript"
                      (Bytes (list_byte_of_string Examples.imports_source))
                      "m.ts" initial_state
  = (add_dependencies
       (if truthy "./a"
        then map (fun _ => import_record "m.ts" "./a")
                 (filter (tagged "import_default") Examples.imports_captures)
        else [])
       initial_state,
     ok tt).
Proof.
  apply (typescript_imports_share_the_first_module_path
           Examples.imports_captures _ "m.ts" initial_state (Some "./a"));
    vm_compute; reflexivity.
Defined.

Lemma last_tagged_cons tag c r :
  last_tagged tag (c :: r)
  = match last_tagged tag r with
    | Some x => Some x
    | None => if tagged tag c then Some c else None
    end.
Proof.
  unfold last_tagged. cbn [filter].
  destruct (tagged tag c); [| now destruct (rev (filter (tagged tag) r))].
  cbn [rev]. now destruct (rev (filter (tagged tag) r)).
Qed.

(** what the inner loop of a call branch ends with: for each of the two
    names, the text of the LAST capture with its tag, if there is one *)
Lemma call_companions_are_the_last captures source_code :
  forall a b a' b',
    call_companions captures source_code a b = ok (a', b') ->
    a' = match last_tagged "method" captures with
         | Some cap => Some (text_of source_code cap)
         | None => a
         end /\
    b' = match last_tagged "object" captures with
         | Some cap => Some (text_of source_code cap)
         | None => b
         end.
Proof.
  induction captures as [| [n t] r IH]; intros a b a' b' H.
  - cbn in H. unfold ok in H. injection H as <- <-. auto.
  - cbn [call_companions] in H. rewrite !last_tagged_cons.
    unfold tagged. cbn [snd].
    destruct (String.eqb t "method") eqn:Em.
    + apply String.eqb_eq in Em. subst t.
      change (String.eqb "method" "object") with false.
      destruct (_get_node_text (Some n) source_code) as [e | txt] eqn:Et;
        [discriminate H |].
      cbn [rbind] in H. destruct (IH _ _ _ _ H) as [Ha Hb]. split.
      * rewrite Ha. destruct (last_tagged "method" r); [reflexivity |].
        unfold text_of. cbn [fst]. now rewrite Et.
      * rewrite Hb. now destruct (last_tagged "object" r).
    + destruct (String.eqb t "object") eqn:Eo.
      * destruct (_get_node_text (Some n) source_code) as [e | txt] eqn:Et;
          [discriminate H |].
        cbn [rbind] in H. destruct (IH _ _ _ _ H) as [Ha Hb]. split.
        -- rewrite Ha. now destruct (last_tagged "method" r).
        -- rewrite Hb. destruct (last_tagged "object" r); [reflexivity |].
           unfold text_of. cbn [fst]. now rewrite Et.
      * destruct (IH _ _ _ _ H) as [Ha Hb]. split.
        -- rewrite Ha. now destruct (last_tagged "method" r).
        -- rewrite Hb. now destruct (last_tagged "object" r).
Qed.

(** Every call record that one run of dependency extraction appends
    carries the same callee: the text of the LAST capture tagged [object]
    in the whole capture list, a dot, and the text of the LAST capture
    tagged [method], whichever call expression the record is for. *)
Theorem call_records_of_one_query_share_one_callee
        (captures : Captures) (lang : string) (source_code : data)
        (file_path : string) (s : State) :
  exists new,
    deps_of (fst (_process_dependency captures lang source_code file_path s))
      = deps_of s ++ new /\
    forall d, In d new -> is_type "method_call" d = true ->
      exists object_capture method_capture,
        last_tagged "object" captures = Some object_capture /\
        last_tagged "method" captures = Some method_capture /\
        str_of d "callee"
        = Some (text_of source_code object_capture ++ "."
                ++ text_of source_code method_capture)%string.
Proof.
  set (Q := fun d : dict =>
              is_type "method_call" d = true ->
              exists object_capture method_capture,
                last_tagged "object" captures = Some object_capture /\
                last_tagged "method" captures = Some method_capture /\
                str_of d "callee"
                = Some (text_of source_code object_capture ++ "."
                        ++ text_of source_code method_capture)%string).
  assert (Hcall : forall node,
             preserves (extends deps_of Q)
                       (process_call node captures source_code file_path)).
  { intros node s0. unfold process_call, bind, lift, get.
    destruct (call_companions captures source_code None None)
      as [e | [a b]] eqn:E; simpl; [reflexivity |].
    destruct (call_companions_are_the_last _ _ _ _ _ _ E) as [Ha Hb].
    destruct a as [mn |]; [| reflexivity].
    destruct b as [on |]; [| reflexivity].
    simpl. destruct (truthy mn && truthy on); [| reflexivity].
    destruct (_find_enclosing_entity _ (classes (entities s0)) _);
      [| reflexivity].
    destruct (_find_enclosing_entity _ (methods (entities s0)) _);
      [| reflexivity].
    eapply extends_one; [reflexivity |].
    intros _.
    destruct (last_tagged "object" captures) as [oc |]; [| discriminate Hb].
    destruct (last_tagged "method" captures) as [mc |]; [| discriminate Ha].
    exists oc, mc. injection Ha as ->. injection Hb as ->. auto. }
  assert (F : preserves (extends deps_of Q)
                (_process_dependency captures lang source_code file_path)).
  { unfold _process_dependency. apply preserves_for_each; [typeclasses eauto |].
    intros [node tag] _. unfold process_capture.
    destruct (String.eqb lang "java").
    - destruct (String.eqb tag "call"); [apply Hcall |].
      preserving; apply append_dependency_deps; intros H; discriminate H.
    - destruct (String.eqb lang "typescript"); [| preserving].
      destruct (String.eqb tag "call"); [apply Hcall |].
      preserving; apply append_dependency_deps; intros H; discriminate H. }
  destruct (F s) as [new [E HF]]. exists new. split; [exact E |].
  rewrite Forall_forall in HF. exact HF.
Qed.

(** With the two calls [a.f(); b.g();] in one method, both records carry
    the callee of the second. *)
Lemma two_calls_both_carry_the_last_callee :
  deps_of (fst (_process_dependency two_calls_captures "java"
                  (Bytes (list_byte_of_string two_calls_source))
                  "proj/T.java" two_calls_state))
  = [call_record "A" "m" "b.g" "proj/T.java";
     call_record "A" "m" "b.g" "proj/T.java"].
Proof. vm_compute. reflexivity. Qed.

(** ** The persister: what a call can do to the graph *)

Section Persisting.
Import Neo4j.

#[global] Instance grows_preorder : PreOrder grows.
Proof.
  split.
  - intros g. split; exists []; now rewrite app_nil_r.
  - intros a b c [[n1 E1] [r1 F1]] [[n2 E2] [r2 F2]]. split.
    + exists (n1 ++ n2). now rewrite E2, E1, app_assoc.
    + exists (r1 ++ r2). now rewrite F2, F1, app_assoc.
Qed.

Lemma merge_node_grows lbl pat g : grows g (fst (merge_node lbl pat g)).
Proof.
  unfold merge_node. destruct (match_nodes lbl pat g); simpl.
  - split; [eexists; reflexivity | exists []; now rewrite app_nil_r].
  - reflexivity.
Qed.

Lemma merge_rels_grows rs g : grows g (merge_rels rs g).
Proof.
  unfold merge_rels. revert g. induction rs as [| r rest IH]; intros g; simpl.
  - reflexivity.
  - etransitivity; [| apply IH].
    unfold merge_rel. destruct (has_rel r g); [reflexivity |].
    split; [exists []; now rewrite app_nil_r | eexists; reflexivity].
Qed.

Lemma link_each_grows cs lbl pat t g : grows g (link_each cs lbl pat t g).
Proof.
  unfold link_each. revert g. induction cs as [| c rest IH]; intros g; simpl.
  - reflexivity.
  - etransitivity; [| apply IH].
    pose proof (merge_node_grows lbl pat g) as G1.
    destruct (merge_node lbl pat g) as [g1 targets]. simpl in G1.
    etransitivity; [exact G1 | apply merge_rels_grows].
Qed.

Lemma implements_fold_grows class_name f items g :
  grows g (fold_left
             (fun g interface =>
                link_each (match_nodes "Class" [("name", class_name); ("file", f)] g)
                          "Interface" [("name", VStr interface)] "IMPLEMENTS" g)
             items g).
Proof.
  revert g. induction items as [| i r IH]; intros g; simpl.
  - reflexivity.
  - etransitivity; [apply link_each_grows | apply IH].
Qed.

Lemma implements_fold_only_adds class_name f items g :
  only_adds "IMPLEMENTS" g
    (fold_left
       (fun g interface =>
          link_each (match_nodes "Class" [("name", class_name); ("file", f)] g)
                    "Interface" [("name", VStr interface)] "IMPLEMENTS" g)
       items g).
Proof.
  revert g. induction items as [| i r IH]; intros g; simpl.
  - apply only_adds_refl.
  - eapply only_adds_trans; [apply link_each_only_adds | apply IH].
Qed.

(** the graphs a dependency transaction can commit *)
Lemma dependency_transaction_shape d g g' lines :
  _create_dependency_transaction d g = ok (g', lines) ->
  g' = g \/
  (exists cms ccs pat,
      g' = link_each
             (map fst (filter (fun mc => has_rel {| src := fst mc;
                                                    rel_type := "BELONGS_TO";
                                                    dst := snd mc |} g)
                              (rows cms ccs)))
             "Method" pat "CALLS" g) \/
  (exists cs pat, g' = link_each cs "Import" pat "IMPORTS" g) \/
  (exists class_name f items,
      g' = fold_left
             (fun g interface =>
                link_each (match_nodes "Class" [("name", class_name); ("file", f)] g)
                          "Interface" [("name", VStr interface)] "IMPLEMENTS" g)
             items g) \/
  (exists cs pat, g' = link_each cs "Class" pat "EXTENDS" g).
Proof.
  unfold _create_dependency_transaction, rbind, ok, raise. intros H.
  repeat match type of H with
         | context [match ?x with _ => _ end] =>
           destruct x eqn:?; cbv beta iota in H; try discriminate H
         end;
    apply (f_equal (fun r => match r with
                             | inr (x, _) => x
                             | inl _ => g
                             end)) in H;
    cbv beta iota in H; rewrite <- H;
    first [ left; reflexivity
          | right; left; do 3 eexists; reflexivity
          | right; right; left; do 2 eexists; reflexivity
          | right; right; right; left; do 3 eexists; reflexivity
          | right; right; right; right; do 2 eexists; reflexivity ].
Qed.

Lemma run_call_grows c st : grows (graph_of st) (graph_of (run_call c st)).
Proof.
  destruct c as [cn fp | mn cn fp | d]; simpl.
  - apply merge_node_grows.
  - unfold _create_method_node_transaction.
    pose proof (merge_node_grows "Method"
      [("name", VStr mn); ("class", VStr cn); ("file", VStr fp)] (graph_of st)) as G1.
    destruct (merge_node "Method" _ (graph_of st)) as [g1 ms]. simpl in G1.
    pose proof (merge_node_grows "Class"
      [("name", VStr cn); ("file", VStr fp)] g1) as G2.
    destruct (merge_node "Class" _ g1) as [g2 cs]. simpl in G2.
    etransitivity; [exact G1 |]. etransitivity; [exact G2 |].
    apply merge_rels_grows.
  - destruct (_create_dependency_transaction d (graph_of st))
      as [e | [g' lines]] eqn:E; simpl; [reflexivity |].
    destruct (dependency_transaction_shape _ _ _ _ E)
      as [-> | [[? [? [? ->]]] | [[? [? ->]] | [[? [? [? ->]]] | [? [? ->]]]]]].
    + reflexivity.
    + apply link_each_grows.
    + apply link_each_grows.
    + apply implements_fold_grows.
    + apply link_each_grows.
Qed.

(** No call on the persister, of the three the scanner makes and with any
    arguments, removes or changes a node or a relationship: after any
    sequence of calls the graph holds the nodes it had, at their places,
    and the relationships it had, possibly followed by new ones. *)
Theorem persister_calls_only_add
        (calls : list GraphCall) (st : Store) :
  grows (graph_of st) (graph_of (replay calls st)).
Proof.
  unfold replay. revert st. induction calls as [| c r IH]; intros st; simpl.
  - reflexivity.
  - etransitivity; [apply run_call_grows | apply IH].
Qed.

(** *** Call edges *)

Lemma no_rel_of_type_has_rel t r g :
  no_rel_of_type t g = true -> rel_type r = t -> has_rel r g = false.
Proof.
  unfold no_rel_of_type, has_rel. intros H Hr.
  induction (rels g) as [| x rest IH]; simpl in *; [reflexivity |].
  apply andb_true_iff in H. destruct H as [Hx Hrest].
  rewrite (IH Hrest), orb_false_r. unfold rel_eqb.
  apply negb_true_iff in Hx. rewrite Hr.
  rewrite String.eqb_sym, Hx. now rewrite andb_false_r.
Qed.

Lemma filter_none {A} (p : A -> bool) l :
  (forall x, p x = false) -> filter p l = [].
Proof.
  intros H. induction l as [| x r IH]; simpl; [reflexivity |].
  now rewrite H.
Qed.

Lemma only_adds_no_rel_of_type t t0 g g' :
  only_adds t g g' -> String.eqb t t0 = false ->
  no_rel_of_type t0 g = true -> no_rel_of_type t0 g' = true.
Proof.
  intros [new [E F]] Ht H. unfold no_rel_of_type in *.
  rewrite E, forallb_app, H. simpl.
  apply forallb_forall. intros r Hin. rewrite Forall_forall in F.
  rewrite (F r Hin), Ht. reflexivity.
Qed.

Lemma run_call_keeps_no_rel t st c :
  String.eqb "HAS_METHOD" t = false -> String.eqb "IMPORTS" t = false ->
  String.eqb "IMPLEMENTS" t = false -> String.eqb "EXTENDS" t = false ->
  no_rel_of_type "BELONGS_TO" (graph_of st) = true ->
  no_rel_of_type t (graph_of st) = true ->
  no_rel_of_type t (graph_of (run_call c st)) = true.
Proof.
  intros T1 T2 T3 T4 Hb Ht.
  destruct c as [cn fp | mn cn fp | d]; simpl.
  - unfold _create_class_node_transaction, no_rel_of_type.
    now rewrite merge_node_rels.
  - unfold _create_method_node_transaction.
    pose proof (merge_node_rels "Method"
      [("name", VStr mn); ("class", VStr cn); ("file", VStr fp)] (graph_of st)) as R1.
    destruct (merge_node "Method" _ (graph_of st)) as [g1 ms]. simpl in R1.
    pose proof (merge_node_rels "Class"
      [("name", VStr cn); ("file", VStr fp)] g1) as R2.
    destruct (merge_node "Class" _ g1) as [g2 cs]. simpl in R2.
    eapply only_adds_no_rel_of_type; [| exact T1 |].
    + apply merge_rels_only_adds. apply Forall_forall. intros r Hin.
      apply in_map_iff in Hin. now destruct Hin as [mc [<- _]].
    + unfold no_rel_of_type in *. now rewrite R2, R1.
  - destruct (_create_dependency_transaction d (graph_of st))
      as [e | [g' lines]] eqn:E; simpl; [exact Ht |].
    destruct (dependency_transaction_shape _ _ _ _ E)
      as [-> | [[cms [ccs [pat ->]]] | [[? [? ->]] | [[? [? [? ->]]] | [? [? ->]]]]]].
    + exact Ht.
    + rewrite filter_none; [exact Ht |].
      intros mc. now apply (no_rel_of_type_has_rel "BELONGS_TO").
    + eapply only_adds_no_rel_of_type;
        [apply link_each_only_adds | exact T2 | exact Ht].
    + eapply only_adds_no_rel_of_type;
        [apply implements_fold_only_adds | exact T3 | exact Ht].
    + eapply only_adds_no_rel_of_type;
        [apply link_each_only_adds | exact T4 | exact Ht].
Qed.

(** On a store without BELONGS_TO and CALLS relationships (an empty or
    cleared one, for instance), no sequence of calls on the persister
    creates either: the call transaction binds a caller through
    BELONGS_TO, which no transaction creates, so no CALLS relationship is
    ever stored. *)
Theorem no_calls_relationship_is_ever_stored
        (calls : list GraphCall) (st : Store) :
  no_rel_of_type "BELONGS_TO" (graph_of st) = true ->
  no_rel_of_type "CALLS" (graph_of st) = true ->
  no_rel_of_type "BELONGS_TO" (graph_of (replay calls st)) = true /\
  no_rel_of_type "CALLS" (graph_of (replay calls st)) = true.
Proof.
  unfold replay. revert st. induction calls as [| c r IH]; intros st Hb Hc; simpl.
  - auto.
  - apply IH; apply run_call_keeps_no_rel; auto.
Qed.

Lemma no_calls_relationship_is_ever_stored_witness :
  no_rel_of_type "BELONGS_TO"
    (graph_of (replay (graph_log (fst (scan_project Examples.pair_project "proj"
                                                     initial_state)))
                      empty_store)) = true /\
  no_rel_of_type "CALLS"
    (graph_of (replay (graph_log (fst (scan_project Examples.pair_project "proj"
                                                     initial_state)))
                      empty_store)) = true.
Proof.
  apply no_calls_relationship_is_ever_stored; reflexivity.
Defined.

(** On a store without BELONGS_TO relationships, persisting a call
    dependency changes nothing in the graph: no node for the callee, no
    relationship, whatever the record holds. *)
Theorem call_dependency_is_not_persisted (d : dict) (st : Store) :
  no_rel_of_type "BELONGS_TO" (graph_of st) = true ->
  is_type "method_call" d = true ->
  graph_of (run_call (create_dependency d) st) = graph_of st.
Proof.
  intros Hb Hty. simpl.
  destruct (_create_dependency_transaction d (graph_of st))
    as [e | [g' lines]] eqn:E; simpl; [reflexivity |].
  unfold is_type, str_of in Hty.
  destruct (dict_get d "type") as [[t | |] |] eqn:Et; try discriminate.
  apply String.eqb_eq in Hty. subst t.
  unfold _create_dependency_transaction, getitem in E. rewrite Et in E.
  cbn [rbind ok value_eqb String.eqb Ascii.eqb Bool.eqb] in E.
  destruct (split_callee d) as [[] | ?]; try discriminate E.
  - now inversion E.
  - unfold rbind, ok, raise in E.
    repeat match type of E with
           | context [match ?x with _ => _ end] =>
             destruct x eqn:?; cbv beta iota in E; try discriminate E
           end.
    apply (f_equal (fun r => match r with
                             | inr (x, _) => x
                             | inl _ => graph_of st
                             end)) in E.
    cbv beta iota in E. rewrite <- E.
    rewrite filter_none; [reflexivity |].
    intros mc. now apply (no_rel_of_type_has_rel "BELONGS_TO").
Qed.

Lemma call_dependency_is_not_persisted_witness :
  graph_of (run_call (create_dependency (call_record "A" "f" "b.g" "proj/AB.java"))
                     (replay [create_class_node "A" "proj/AB.java";
                              create_method_node "f" "A" "proj/AB.java"]
                             empty_store))
  = graph_of (replay [create_class_node "A" "proj/AB.java";
                      create_method_node "f" "A" "proj/AB.java"]
                     empty_store).
Proof.
  apply call_dependency_is_not_persisted; reflexivity.
Defined.

End Persisting.

(** ** The callee, formatted and split again *)

Lemma split_dot1_roundtrip object_name method_name :
  has_dot object_name = false ->
  split_dot1 (object_name ++ "." ++ method_name)%string
  = [object_name; method_name].
Proof.
  unfold has_dot. induction object_name as [| c r IH]; intros H.
  - reflexivity.
  - cbn [list_ascii_of_string existsb] in H.
    apply orb_false_iff in H. destruct H as [Hc Hr].
    cbn [append split_dot1]. rewrite Ascii.eqb_sym, Hc.
    cbn [append] in IH. now rewrite (IH Hr).
Qed.

(** The callee that extraction formats as object, dot, method is unpacked
    by the persister into that same object and method, when the object
    name has no dot in it (an identifier has none). *)
Theorem formatted_callee_splits_back
        (caller_class caller_method object_name method_name file_path : string) :
  has_dot object_name = false ->
  Neo4j.split_callee
    (call_record caller_class caller_method
                 (object_name ++ "." ++ method_name)%string file_path)
  = ok (object_name, method_name).
Proof.
  intros H. unfold Neo4j.split_callee, call_record.
  cbn -[split_dot1 append]. now rewrite split_dot1_roundtrip.
Qed.

Lemma formatted_callee_splits_back_witness :
  Neo4j.split_callee (call_record "A" "f" ("b" ++ "." ++ "g")%string "proj/AB.java")
  = ok ("b", "g").
Proof. apply formatted_callee_splits_back. reflexivity. Defined.

Lemma split_dot1_plain s : has_dot s = false -> split_dot1 s = [s].
Proof.
  unfold has_dot. induction s as [| c r IH]; intros H.
  - reflexivity.
  - cbn [list_ascii_of_string existsb] in H.
    apply orb_false_iff in H. destruct H as [Hc Hr].
    cbn [split_dot1]. rewrite Ascii.eqb_sym, Hc. now rewrite (IH Hr).
Qed.

(** A call record whose callee has no dot is discarded by the persister:
    the graph stays as it was and one invalid-callee warning is logged,
    no error. *)
Theorem dotless_callee_is_discarded_with_a_warning
        (d : dict) (callee : string) (st : Neo4j.Store) :
  is_type "method_call" d = true ->
  dict_get d "callee" = Some (VStr callee) ->
  has_dot callee = false ->
  Neo4j.run_call (create_dependency d) st
  = {| Neo4j.graph_of := Neo4j.graph_of st;
       Neo4j.log_of := Neo4j.log_of st
                       ++ [Neo4j.warning "Invalid callee format"] |}.
Proof.
  intros Hty Hc Hd. unfold is_type, str_of in Hty.
  destruct (dict_get d "type") as [[t | |] |] eqn:Et; try discriminate.
  apply String.eqb_eq in Hty. subst t.
  simpl. unfold Neo4j._create_dependency_transaction, getitem. rewrite Et.
  cbn [rbind ok value_eqb String.eqb Ascii.eqb Bool.eqb].
  unfold Neo4j.split_callee, getitem. rewrite Hc. cbn [rbind ok].
  rewrite (split_dot1_plain callee Hd). reflexivity.
Qed.

Lemma dotless_callee_is_discarded_with_a_warning_witness :
  Neo4j.run_call (create_dependency (call_record "A" "f" "g" "proj/AB.java"))
                 Neo4j.empty_store
  = {| Neo4j.graph_of := Neo4j.graph_of Neo4j.empty_store;
       Neo4j.log_of := Neo4j.log_of Neo4j.empty_store
                       ++ [Neo4j.warning "Invalid callee format"] |}.
Proof.
  apply (dotless_callee_is_discarded_with_a_warning _ "g"); reflexivity.
Defined.

(** ** Imports, and the classes of their file *)

Section Linking.
Import Neo4j.

Lemma find_ids_app_gen p a b i :
  find_ids p (a ++ b) i = find_ids p a i ++ find_ids p b (i + List.length a).
Proof.
  revert i. induction a as [| x r IH]; intros i; simpl.
  - now rewrite Nat.add_0_r.
  - rewrite IH. replace (S i + List.length r) with (i + S (List.length r)) by lia.
    now destruct (p x).
Qed.

Lemma match_nodes_grows lbl pat g g' i :
  grows g g' -> In i (match_nodes lbl pat g) -> In i (match_nodes lbl pat g').
Proof.
  intros [[ns E] _] Hin. unfold match_nodes in *.
  rewrite E, find_ids_app_gen. apply in_or_app. now left.
Qed.

Lemma has_rel_grows r g g' :
  grows g g' -> has_rel r g = true -> has_rel r g' = true.
Proof.
  intros [_ [rs E]] H. unfold has_rel in *. now rewrite E, existsb_app, H.
Qed.

Lemma merge_node_targets lbl pat g :
  matches lbl pat {| label := lbl; props := pat |} = true ->
  snd (merge_node lbl pat g) <> [] /\
  forall i, In i (snd (merge_node lbl pat g)) ->
            In i (match_nodes lbl pat (fst (merge_node lbl pat g))).
Proof.
  intros Hself. unfold merge_node.
  destruct (match_nodes lbl pat g) as [| j js] eqn:Em; simpl.
  - split; [discriminate |]. intros i [<- | []].
    unfold match_nodes in *. simpl. rewrite find_ids_app, Em, Hself.
    simpl. now left.
  - split; [discriminate |]. intros i Hi. now rewrite Em.
Qed.

Lemma link_each_links cs lbl pat t g c :
  matches lbl pat {| label := lbl; props := pat |} = true ->
  In c cs ->
  exists i,
    In i (match_nodes lbl pat (link_each cs lbl pat t g)) /\
    has_rel {| src := c; rel_type := t; dst := i |}
            (link_each cs lbl pat t g) = true.
Proof.
  intros Hself. revert g. induction cs as [| c0 rest IH]; intros g Hin;
    [destruct Hin |].
  change (link_each (c0 :: rest) lbl pat t g)
    with (link_each rest lbl pat t
            (let (g1, targets) := merge_node lbl pat g in
             merge_rels (map (fun i => {| src := c0; rel_type := t; dst := i |})
                             targets) g1)).
  destruct Hin as [-> | Hin]; [| now apply IH].
  destruct (merge_node_targets lbl pat g Hself) as [Hne Hsub].
  destruct (merge_node lbl pat g) as [g1 targets]. simpl in Hne, Hsub.
  destruct targets as [| i0 more]; [now elim Hne |].
  set (g2 := merge_rels _ g1).
  assert (H2 : has_rel {| src := c; rel_type := t; dst := i0 |} g2 = true).
  { apply merge_rels_keeps. simpl. now left. }
  assert (M2 : In i0 (match_nodes lbl pat g2)).
  { apply (match_nodes_grows lbl pat g1); [apply merge_rels_grows |].
    apply Hsub. now left. }
  exists i0. split.
  - eapply match_nodes_grows; [apply link_each_grows | exact M2].
  - eapply has_rel_grows; [apply link_each_grows | exact H2].
Qed.

(** Persisting an import record links every class node of its file to an
    import node with its path; and when the graph has no class node for
    the file (a file that declares no class), nothing is stored at all. *)
Theorem import_is_linked_from_every_class_of_its_file
        (file_path import_path : string) (st : Store) :
  (forall c,
      In c (match_nodes "Class" [("file", VStr file_path)] (graph_of st)) ->
      exists i,
        In i (match_nodes "Import" [("path", VStr import_path)]
                (graph_of (run_call (create_dependency
                                       (import_record file_path import_path)) st))) /\
        has_rel {| src := c; rel_type := "IMPORTS"; dst := i |}
                (graph_of (run_call (create_dependency
                                       (import_record file_path import_path)) st))
        = true) /\
  (match_nodes "Class" [("file", VStr file_path)] (graph_of st) = [] ->
   graph_of (run_call (create_dependency (import_record file_path import_path)) st)
   = graph_of st).
Proof.
  assert (E : graph_of (run_call (create_dependency
                                    (import_record file_path import_path)) st)
              = link_each (match_nodes "Class" [("file", VStr file_path)]
                                       (graph_of st))
                          "Import" [("path", VStr import_path)] "IMPORTS"
                          (graph_of st)) by reflexivity.
  rewrite E. split.
  - intros c Hin. apply link_each_links; [| exact Hin].
    unfold matches, has_props. simpl. now rewrite String.eqb_refl.
  - intros ->. reflexivity.
Qed.

Lemma import_is_linked_from_every_class_of_its_file_witness :
  exists i,
    In i (match_nodes "Import" [("path", VStr "com.foo.Bar")]
            (graph_of (run_call (create_dependency
                                   (import_record "proj/A.java" "com.foo.Bar"))
                                (replay [create_class_node "A" "proj/A.java"]
                                        empty_store)))) /\
    has_rel {| src := 0; rel_type := "IMPORTS"; dst := i |}
            (graph_of (run_call (create_dependency
                                   (import_record "proj/A.java" "com.foo.Bar"))
                                (replay [create_class_node "A" "proj/A.java"]
                                        empty_store)))
    = true.
Proof.
  apply (proj1 (import_is_linked_from_every_class_of_its_file
                  "proj/A.java" "com.foo.Bar"
                  (replay [create_class_node "A" "proj/A.java"] empty_store))).
  vm_compute. left. reflexivity.
Defined.

End Linking.

(** ** No duplicate node *)

Section Uniqueness.
Import Neo4j.

Lemma find_ids_nonempty p ns i n :
  In n ns -> p n = true -> find_ids p ns i <> [].
Proof.
  revert i. induction ns as [| x r IH]; intros i Hin Hp; [destruct Hin |].
  simpl. destruct Hin as [-> | Hin].
  - rewrite Hp. discriminate.
  - destruct (p x); [discriminate | now apply IH].
Qed.

Lemma NoDup_snoc {A} (l : list A) x : NoDup l -> ~ In x l -> NoDup (l ++ [x]).
Proof.
  induction l as [| y r IH]; intros Hn Hx; simpl.
  - constructor; [intros [] | constructor].
  - inversion Hn; subst. constructor.
    + intros Hin. apply in_app_or in Hin. destruct Hin as [Hin | [-> | []]].
      * contradiction.
      * apply Hx. now left.
    + apply IH; [assumption |]. intros Hin. apply Hx. now right.
Qed.

Lemma merge_node_nodup lbl pat g :
  matches lbl pat {| label := lbl; props := pat |} = true ->
  NoDup (nodes g) -> NoDup (nodes (fst (merge_node lbl pat g))).
Proof.
  intros Hself Hn. unfold merge_node.
  destruct (match_nodes lbl pat g) as [| j js] eqn:Em; simpl; [| exact Hn].
  apply NoDup_snoc; [exact Hn |]. intros Hin.
  now apply (find_ids_nonempty (matches lbl pat) (nodes g) 0 _ Hin Hself).
Qed.

Lemma merge_rels_nodes rs g : nodes (merge_rels rs g) = nodes g.
Proof.
  unfold merge_rels. revert g. induction rs as [| r rest IH]; intros g; simpl.
  - reflexivity.
  - rewrite IH. unfold merge_rel. now destruct (has_rel r g).
Qed.

Lemma link_each_nodup cs lbl pat t g :
  matches lbl pat {| label := lbl; props := pat |} = true ->
  NoDup (nodes g) -> NoDup (nodes (link_each cs lbl pat t g)).
Proof.
  intros Hself. unfold link_each. revert g.
  induction cs as [| c rest IH]; intros g Hn; simpl; [exact Hn |].
  apply IH. pose proof (merge_node_nodup lbl pat g Hself Hn) as H1.
  destruct (merge_node lbl pat g) as [g1 targets]. simpl in H1.
  now rewrite merge_rels_nodes.
Qed.

Lemma self_match_single lbl k v :
  matches lbl [(k, VStr v)] {| label := lbl; props := [(k, VStr v)] |} = true.
Proof.
  unfold matches, has_props. simpl. rewrite !String.eqb_refl. simpl.
  now rewrite ?String.eqb_refl.
Qed.

Lemma implements_fold_nodup class_name f items g :
  NoDup (nodes g) ->
  NoDup (nodes (fold_left
                  (fun g interface =>
                     link_each (match_nodes "Class"
                                            [("name", class_name); ("file", f)] g)
                               "Interface" [("name", VStr interface)]
                               "IMPLEMENTS" g)
                  items g)).
Proof.
  revert g. induction items as [| i r IH]; intros g Hn; simpl; [exact Hn |].
  apply IH. apply link_each_nodup; [apply self_match_single | exact Hn].
Qed.

Lemma emitted_transaction_nodup lang file_path d g g' lines :
  emitted_by lang file_path d -> NoDup (nodes g) ->
  _create_dependency_transaction d g = ok (g', lines) ->
  NoDup (nodes g').
Proof.
  intros He Hn Htx.
  apply (f_equal (fun r => match r with
                           | inr (x, _) => x
                           | inl _ => g
                           end)) in Htx.
  cbv beta iota delta [ok] in Htx. rewrite <- Htx. clear Htx.
  destruct He; unfold _create_dependency_transaction.
  - cbn -[link_each match_nodes split_callee append].
    destruct (split_callee _) as [[] | ?]; try exact Hn.
    cbn -[link_each match_nodes append].
    apply link_each_nodup; [apply self_match_single | exact Hn].
  - cbn -[link_each match_nodes].
    apply link_each_nodup; [apply self_match_single | exact Hn].
  - cbn -[link_each match_nodes fold_left].
    destruct interfaces as [| i rest]; [exact Hn |].
    now apply implements_fold_nodup.
  - cbn -[link_each match_nodes].
    apply link_each_nodup; [apply self_match_single | exact Hn].
  - cbn -[link_each match_nodes].
    apply link_each_nodup; [apply self_match_single | exact Hn].
Qed.

Lemma run_call_nodup c st :
  scanned_call c -> NoDup (nodes (graph_of st)) ->
  NoDup (nodes (graph_of (run_call c st))).
Proof.
  intros Hc Hn. destruct c as [cn fp | mn cn fp | d]; simpl.
  - apply merge_node_nodup; [apply own_match; constructor | exact Hn].
  - unfold _create_method_node_transaction.
    pose proof (merge_node_nodup "Method"
      [("name", VStr mn); ("class", VStr cn); ("file", VStr fp)] (graph_of st)
      (own_match _ _ (method_pattern mn cn fp)) Hn) as H1.
    destruct (merge_node "Method" _ (graph_of st)) as [g1 ms]. simpl in H1.
    pose proof (merge_node_nodup "Class"
      [("name", VStr cn); ("file", VStr fp)] g1
      (own_match _ _ (class_pattern cn fp)) H1) as H2.
    destruct (merge_node "Class" _ g1) as [g2 cs]. simpl in H2.
    now rewrite merge_rels_nodes.
  - destruct Hc as [fp He].
    destruct (_create_dependency_transaction d (graph_of st))
      as [e | [g' lines]] eqn:E; simpl; [exact Hn |].
    eapply emitted_transaction_nodup; eauto.
Qed.

Lemma replay_nodup calls st :
  Forall scanned_call calls -> NoDup (nodes (graph_of st)) ->
  NoDup (nodes (graph_of (replay calls st))).
Proof.
  unfold replay. revert st. induction calls as [| c r IH]; intros st Hc Hn; simpl.
  - exact Hn.
  - inversion Hc; subst. apply IH; [assumption |]. now apply run_call_nodup.
Qed.

Lemma scan_project_calls_are_scanned P project_path s :
  exists calls,
    graph_log (fst (scan_project P project_path s)) = graph_log s ++ calls /\
    Forall scanned_call calls.
Proof.
  assert (H1 : extends graph_log (fun c => is_upsert c = true)
                       (fresh s) (fst (first_phase P project_path s))).
  { unfold first_phase.
    apply (preserves_for_each _ _ _ (extends_preorder _ _)).
    intros f _. apply scan_file_only_upserts. }
  destruct H1 as [ups [E F]]. simpl in E.
  assert (Fu : Forall scanned_call ups).
  { eapply Forall_impl; [| exact F]. intros [| |] H; try exact I. discriminate. }
  pose proof (scan_project_dependencies_emitted P project_path s) as Hd.
  rewrite scan_project_phases in *.
  destruct (first_phase P project_path s) as [s1 [e | u]]; simpl in *.
  - exists ups. auto.
  - exists (ups ++ map create_dependency (deps_of s1)).
    rewrite E, <- app_assoc. split; [reflexivity |].
    apply Forall_app. split; [exact Fu |].
    apply Forall_forall. intros c Hin. apply in_map_iff in Hin.
    destruct Hin as [d [<- Hin]]. simpl.
    rewrite Forall_forall in Hd. apply Hd. exact Hin.
Qed.

(** The calls of a project scan, persisted into a database that was just
    cleared, never leave two nodes with the same label and the same
    properties: one class node per (name, file), one method node per
    (name, class, file), one node per import path, interface name, callee
    and parent name. *)
Theorem scan_into_cleared_database_has_no_duplicate_node
        (P : Provider) (project_path : string) (s : State) :
  exists calls,
    graph_log (fst (scan_project P project_path s)) = graph_log s ++ calls /\
    forall st,
      NoDup (nodes (graph_of (replay calls (Neo4jAdmin.clear_database st)))).
Proof.
  destruct (scan_project_calls_are_scanned P project_path s) as [calls [E F]].
  exists calls. split; [exact E |].
  intros st. apply replay_nodup; [exact F | constructor].
Qed.

End Uniqueness.

(** ** The quotes around a module path *)

Lemma lstrip_head p s :
  match lstrip p s with
  | [] => True
  | c :: _ => p c = false
  end.
Proof.
  induction s as [| c r IH]; simpl; [exact I |].
  destruct (p c) eqn:E; [exact IH | exact E].
Qed.

Lemma lstrip_split (p : ascii -> bool) s : exists pre, s = pre ++ lstrip p s.
Proof.
  induction s as [| c r [pre IH]]; simpl.
  - now exists [].
  - destruct (p c).
    + exists (c :: pre). simpl. now rewrite <- IH.
    + now exists [].
Qed.

Lemma strip_list_clean p l :
  match strip_list p l with
  | [] => True
  | c :: r => p c = false /\ p (last (c :: r) c) = false
  end.
Proof.
  unfold strip_list.
  pose proof (lstrip_head p l) as Ht.
  pose proof (lstrip_head p (rev (lstrip p l))) as Hu.
  destruct (lstrip_split p (rev (lstrip p l))) as [pre Hsplit].
  destruct (lstrip p (rev (lstrip p l))) as [| c0 u'] eqn:Eu; [exact I |].
  assert (Et : lstrip p l = (rev u' ++ [c0]) ++ rev pre).
  { rewrite <- (rev_involutive (lstrip p l)), Hsplit, rev_app_distr.
    reflexivity. }
  simpl rev. destruct (rev u' ++ [c0]) as [| c r] eqn:Er.
  - now destruct (rev u').
  - split.
    + rewrite Et in Ht. exact Ht.
    + rewrite <- Er. now rewrite last_last.
Qed.

(** The module path that the TypeScript import branch records, when there
    is one, neither begins nor ends with a single or double quote: all the
    quotes at both ends of the captured text are stripped, not one pair. *)
Theorem module_path_has_no_quote_at_its_ends
        (captures : Captures) (source_code : data) (p : string) :
  first_module_path captures source_code = ok (Some p) ->
  clean_ends p = true.
Proof.
  induction captures as [| [n t] r IH]; cbn [first_module_path];
    [discriminate |].
  destruct (String.eqb t "module_path"); [| exact IH].
  destruct (_get_node_text (Some n) source_code) as [e | txt];
    cbn [rbind]; [discriminate |].
  unfold ok. intros [= <-]. unfold clean_ends, strip.
  rewrite list_ascii_of_string_of_list_ascii.
  pose proof (strip_list_clean is_quote (list_ascii_of_string txt)) as H.
  destruct (strip_list is_quote (list_ascii_of_string txt)) as [| c rest];
    [reflexivity |].
  destruct H as [H1 H2]. now rewrite H1, H2.
Qed.

Lemma module_path_has_no_quote_at_its_ends_witness : clean_ends "./a" = true.
Proof.
  apply (module_path_has_no_quote_at_its_ends
           Examples.imports_captures
           (Bytes (list_byte_of_string Examples.imports_source))).
  vm_compute. reflexivity.
Defined.

(** ** Entity extraction under the recursion limit *)

Lemma _extract_entities_bounded_unfold frames_left t b e cs source_code file_path s :
  _extract_entities_bounded (S frames_left) (mkNode t b e cs) source_code file_path s
  = if declares (mkNode t b e cs) && (frames_left =? 0) then (s, RecursionError)
    else match visit (mkNode t b e cs) source_code file_path s with
         | (s1, inl x) => (s1, Raised x)
         | (s1, inr _) => each_child_bounded frames_left source_code file_path cs s1
         end.
Proof.
  cbn [_extract_entities_bounded children].
  destruct (declares (mkNode t b e cs) && (frames_left =? 0)); [reflexivity |].
  destruct (visit (mkNode t b e cs) source_code file_path s) as [s1 [x | u]];
    [reflexivity |].
  revert s1. induction cs as [| [f c] r IH]; intros s1; [reflexivity |].
  cbn [each_child_bounded].
  destruct (_extract_entities_bounded frames_left c source_code file_path s1)
    as [s2 [| x |]]; [apply IH | reflexivity | reflexivity].
Qed.

Lemma frames_needed_unfold t b e cs :
  frames_needed (mkNode t b e cs)
  = S (Nat.max (helper_frames (mkNode t b e cs)) (children_frames cs)).
Proof.
  reflexivity.
Qed.

(** the helper calls fit exactly when the test of the bounded traversal
    lets the node through *)
Lemma helper_frames_fit n k :
  declares n && (k =? 0) = false <-> helper_frames n <= k.
Proof.
  unfold helper_frames. destruct (declares n); cbn [andb].
  - rewrite Nat.eqb_neq. lia.
  - split; [lia | reflexivity].
Qed.


(** it returns only if it had the frames the whole tree needs *)
Lemma bounded_returned_frames source_code file_path node :
  forall frames s,
    snd (_extract_entities_bounded frames node source_code file_path s) = Returned ->
    frames_needed node <= frames.
Proof.
  induction node as [t b e cs IH] using Node_nested_ind. intros frames s H.
  rewrite frames_needed_unfold. destruct frames as [| k]; [discriminate H |].
  apply le_n_S.
  rewrite _extract_entities_bounded_unfold in H.
  destruct (declares (mkNode t b e cs) && (k =? 0)) eqn:Ed; [discriminate H |].
  apply helper_frames_fit in Ed. apply Nat.max_lub; [exact Ed |]. clear Ed.
  destruct (visit (mkNode t b e cs) source_code file_path s) as [s1 [x | u]];
    [discriminate H |].
  clear s. revert s1 H.
  induction cs as [| [f c] r IHr]; intros s1 H; [apply Nat.le_0_l |].
  inversion IH as [| ? ? IHc IHrest]; subst. simpl in IHc.
  cbn [each_child_bounded] in H. cbn [children_frames].
  destruct (_extract_entities_bounded k c source_code file_path s1)
    as [s2 o] eqn:Ec.
  destruct o; try discriminate H.
  apply Nat.max_lub.
  - apply (IHc k s1). now rewrite Ec.
  - exact (IHr IHrest s2 H).
Qed.

(** with readable names, only the recursion limit can stop it *)
Lemma bounded_readable_not_raised source_code file_path node :
  forall frames s e,
    forallb (fun n => negb (declares n) || name_readable source_code n)
            (preorder node) = true ->
    snd (_extract_entities_bounded frames node source_code file_path s) <> Raised e.
Proof.
  induction node as [t b e0 cs IH] using Node_nested_ind. intros frames s e H.
  rewrite preorder_unfold in H. cbn [forallb] in H.
  apply andb_true_iff in H. destruct H as [Hn Hcs].
  destruct frames as [| k]; [discriminate |].
  rewrite _extract_entities_bounded_unfold.
  destruct (declares (mkNode t b e0 cs) && (k =? 0)); [discriminate |].
  pose proof (proj2 (visit_outcome (mkNode t b e0 cs) source_code file_path s) Hn)
    as Hv.
  destruct (visit (mkNode t b e0 cs) source_code file_path s) as [s1 [x | u]];
    [discriminate Hv |].
  clear s Hv Hn. revert s1 Hcs.
  induction cs as [| [f c] r IHr]; intros s1 Hcs; [discriminate |].
  inversion IH as [| ? ? IHc IHrest]; subst. simpl in IHc.
  cbn [flat_map snd] in Hcs. rewrite forallb_app in Hcs.
  apply andb_true_iff in Hcs. destruct Hcs as [Hc Hr].
  cbn [each_child_bounded].
  pose proof (IHc k s1 e Hc) as Hne.
  destruct (_extract_entities_bounded k c source_code file_path s1)
    as [s2 [| x |]]; [| exact Hne | discriminate].
  exact (IHr IHrest s2 Hr).
Qed.





(** A tree whose traversal needs more frames than are left before the
    recursion limit, with every declaration's name readable, makes
    extraction raise RecursionError: the scan of the file stops there, and
    what lies past that point in the tree is not extracted. *)
Theorem extraction_of_a_tree_too_deep_raises_recursion_error
        (frames : nat) (root : Node) (source_code : data) (file_path : string)
        (s : State) :
  frames < frames_needed root ->
  forallb (fun n => negb (declares n) || name_readable source_code n)
          (preorder root) = true ->
  snd (_extract_entities_bounded frames root source_code file_path s)
  = RecursionError.
Proof.
  intros Hh Hq.
  destruct (snd (_extract_entities_bounded frames root source_code file_path s))
    as [| e |] eqn:Eo; [| | reflexivity].
  - apply bounded_returned_frames in Eo. lia.
  - now apply bounded_readable_not_raised in Eo.
Qed.

Lemma extraction_of_a_tree_too_deep_raises_recursion_error_witness :
  snd (_extract_entities_bounded 5 (chain 8) (Bytes []) "proj/A.java" initial_state)
  = RecursionError.
Proof.
  apply extraction_of_a_tree_too_deep_raises_recursion_error.
  - vm_compute. lia.
  - vm_compute. reflexivity.
Defined.
